(** * NodeODM: the REST front end (index.js) over the task queue

    A shallow embedding of [src/index.js]: the Express routes for task
    creation, lookup, cancellation, removal and restart, the graceful
    shutdown handler and the startup sequence.  Callbacks are rendered in
    continuation-passing style over an explicit [World] (file system, Task
    Manager, on-disk snapshot, trace of observable events). *)

From Stdlib Require Import ZArith Ascii String DecimalString.
From stdpp Require Import base option list strings gmap fin_maps.

Local Open Scope Z_scope.

(** ** JavaScript values that the routes inspect *)

Module Js.

(** Truthiness of a value that is a string or [undefined]. *)
Definition truthy (v : option string) : bool :=
  match v with
  | Some s => negb (String.eqb s EmptyString)
  | None => false
  end.

(** A value handed to a Node-style callback as its error argument: an
    [Error] object, or (lines 260 and 270 of index.js) a bare string. *)
Inductive Err :=
| ErrObj (message : string)
| ErrStr (s : string).

(** [if (err)]: objects are truthy, a string is truthy unless empty. *)
Definition err_truthy (e : Err) : bool :=
  match e with
  | ErrObj _ => true
  | ErrStr s => negb (String.eqb s EmptyString)
  end.

(** [err.message]: a string has no such property, so the access yields
    [undefined]. *)
Definition message (e : Err) : option string :=
  match e with
  | ErrObj m => Some m
  | ErrStr _ => None
  end.

(** JSON-like values passed to [res.json]. *)
#[local] Unset Elimination Schemes.
Inductive Json :=
| JUndefined
| JNull
| JBool (b : bool)
| JNum (n : Z)
| JStr (s : string)
| JArr (items : list Json)
| JObj (fields : list (string * Json)).
#[local] Set Elimination Schemes.

Definition of_opt (v : option string) : Json :=
  match v with
  | Some s => JStr s
  | None => JUndefined
  end.

(** What [JSON.stringify] keeps: properties whose value is [undefined]
    are dropped from objects, and [undefined] array items become [null]. *)
Fixpoint wire (j : Json) : Json :=
  match j with
  | JArr items =>
      JArr (map (fun x => match wire x with JUndefined => JNull | y => y end) items)
  | JObj fields =>
      JObj (flat_map (fun kv => match wire (snd kv) with
                                | JUndefined => []
                                | y => [(fst kv, y)]
                                end) fields)
  | _ => j
  end.

(** Property lookup on an object (first binding wins). *)
Fixpoint assoc (k : string) (fields : list (string * Json)) : option Json :=
  match fields with
  | [] => None
  | (k', v) :: rest => if String.eqb k k' then Some v else assoc k rest
  end.

Definition get (k : string) (j : Json) : option Json :=
  match j with
  | JObj fields => assoc k fields
  | _ => None
  end.

End Js.
Export Js.

(** ** Strings, paths and the patterns of index.js *)

Definition ascii_between (lo hi c : ascii) : bool :=
  (N.leb (N_of_ascii lo) (N_of_ascii c) && N.leb (N_of_ascii c) (N_of_ascii hi))%bool.

Definition is_digit (c : ascii) : bool := ascii_between "0" "9" c.

(** [[0-9a-f]] under the [i] flag. *)
Definition is_hex (c : ascii) : bool :=
  (is_digit c || ascii_between "a" "f" c || ascii_between "A" "F" c)%bool.

Inductive CharClass :=
| Hex        (* [0-9a-f] *)
| Dash       (* - *)
| Version    (* [1-5] *)
| Variant.   (* [89ab] *)

Definition in_class (k : CharClass) (c : ascii) : bool :=
  match k with
  | Hex => is_hex c
  | Dash => Ascii.eqb c "-"
  | Version => ascii_between "1" "5" c
  | Variant => (ascii_between "8" "9" c || ascii_between "a" "b" c
                || ascii_between "A" "B" c)%bool
  end.

(** A pattern anchored by [^] and [$]: every character is consumed by one
    class and nothing may follow. *)
Fixpoint matches (p : list CharClass) (s : string) : bool :=
  match p, s with
  | [], EmptyString => true
  | k :: p', String c s' => (in_class k c && matches p' s')%bool
  | _, _ => false
  end.

(** [/^[0-9a-f]{8}-[0-9a-f]{4}-[1-5][0-9a-f]{3}-[89ab][0-9a-f]{3}-[0-9a-f]{12}$/i] *)
Definition uuid_pattern : list CharClass :=
  replicate 8 Hex ++ [Dash] ++ replicate 4 Hex ++ [Dash; Version] ++
  replicate 3 Hex ++ [Dash; Variant] ++ replicate 3 Hex ++ [Dash] ++
  replicate 12 Hex.

Definition valid_uuid (s : string) : bool := matches uuid_pattern s.

Definition lower (c : ascii) : ascii :=
  if ascii_between "A" "Z" c then ascii_of_N (N_of_ascii c + 32) else c.

Fixpoint lowercase (s : string) : string :=
  match s with
  | EmptyString => EmptyString
  | String c s' => String (lower c) (lowercase s')
  end.

(** [/\.ext$/gi.test(entry)] for a lower-case literal [suffix]. *)
Definition ends_with_ci (suffix s : string) : bool :=
  let n := String.length s in
  let m := String.length suffix in
  (Nat.leb m n && String.eqb (lowercase (String.substring (n - m) m s)) suffix)%bool.

Definition is_zip (entry : string) : bool := ends_with_ci ".zip" entry.
Definition is_txt (entry : string) : bool := ends_with_ci ".txt" entry.

(** [path.join(a, b)] for the relative, normalised segments used here. *)
Definition path_join (a b : string) : string := a +:+ "/" +:+ b.

(** ** The file system

    Directories are keyed by path; each maps to the names of the plain files
    it holds.  The base directories (["tmp"] and [Directories.data]) are taken
    to exist. *)

Module Fs.

Abbreviation t := (gmap string (list string)).

Definition is_dir (fs : t) (p : string) : bool := bool_decide (is_Some (fs !! p)).

(** [fs.mkdir]: fails with EEXIST when the path is taken. *)
Definition mkdir (p : string) (fs : t) : t * option string :=
  if is_dir fs p
  then (fs, Some ("EEXIST: file already exists, mkdir '" +:+ p +:+ "'"))
  else (<[p := []]> fs, None).

(** Writing a file into a directory replaces a file of the same name. *)
Definition add_entry (n : string) (entries : list string) : list string :=
  if bool_decide (n ∈ entries) then entries else entries ++ [n].

Definition write_file (dir n : string) (fs : t) : t :=
  match fs !! dir with
  | Some entries => <[dir := add_entry n entries]> fs
  | None => fs
  end.

Definition remove_entry (n : string) (entries : list string) : list string :=
  filter (fun x => x ≠ n) entries.

Definition unlink (dir n : string) (fs : t) : t :=
  match fs !! dir with
  | Some entries => <[dir := remove_entry n entries]> fs
  | None => fs
  end.

(** [fs.readdir] *)
Definition readdir (p : string) (fs : t) : string + list string :=
  match fs !! p with
  | Some entries => inr entries
  | None => inl ("ENOENT: no such file or directory, scandir '" +:+ p +:+ "'")
  end.

(** [mv(src, dst)] on a directory: a rename. *)
Definition mv_dir (src dst : string) (fs : t) : t * option string :=
  match fs !! src with
  | Some entries => (<[dst := entries]> (delete src fs), None)
  | None => (fs, Some ("ENOENT: no such file or directory, rename '" +:+ src
                       +:+ "' -> '" +:+ dst +:+ "'"))
  end.

(** [mv] of one plain file between two directories. *)
Definition mv_file (sdir ddir n : string) (fs : t) : t :=
  write_file ddir n (unlink sdir n fs).

(** [rimraf(p)] *)
Definition rimraf (p : string) (fs : t) : t := delete p fs.

Definition is_file (fs : t) (p : string) : bool :=
  existsb (fun de => existsb (fun n => String.eqb p (path_join (fst de) n)) (snd de))
          (map_to_list fs).

(** [fs.existsSync(p)]: a directory, or a plain file inside one. *)
Definition exists_sync (fs : t) (p : string) : bool :=
  (is_dir fs p || is_file fs p)%bool.

(** [fs.stat(p)]: the stats, or an error with its [code]. *)
Inductive StatResult :=
| Stats (isDirectory : bool)
| StatError (code : string).

Definition stat (fs : t) (p : string) : StatResult :=
  if is_dir fs p then Stats true
  else if is_file fs p then Stats false
  else StatError "ENOENT".

End Fs.


(** ** Tasks

    [libs/Task.js] lies outside index.js; the record and its operations
    follow sections 3 and 4.1 of the specification. *)

(** Modelled from the spec: the [status] values of a Task (section 3, and the
    codes of section 6), defined in libs/Task.js. *)
Inductive Status := QUEUED | RUNNING | FAILED | COMPLETED | CANCELED.

#[global] Instance Status_eq_dec : EqDecision Status.
Proof. solve_decision. Defined.

(** Status codes exposed to callers (swagger block of /task/{uuid}/info). *)
Definition status_code (s : Status) : Z :=
  match s with
  | QUEUED => 10
  | RUNNING => 20
  | FAILED => 30
  | COMPLETED => 40
  | CANCELED => 50
  end.

(** Modelled from the spec: the terminal states of section 3. *)
Definition is_terminal (s : Status) : bool :=
  match s with
  | FAILED | COMPLETED | CANCELED => true
  | QUEUED | RUNNING => false
  end.

(** A validated option list: ordered [{name, value}] pairs. *)
Definition Options : Type := list (string * string).

Module Task.

(** Modelled from the spec: the Task of section 3 (libs/Task.js), without
    the handle of the running process. *)
Record t := mk {
  uuid : string;
  name : option string;
  dateCreated : Z;
  status : Status;
  options : Options;
  output : list string;
  processingStart : option Z;
  processingEnd : option Z;
  webhook : option string;
  skipPostProcessing : bool;
  imagesCount : nat
}.

Definition with_status (s : Status) (k : t) : t :=
  mk (uuid k) (name k) (dateCreated k) s (options k) (output k)
     (processingStart k) (processingEnd k) (webhook k) (skipPostProcessing k)
     (imagesCount k).

(** Modelled from the spec: Task.create of libs/Task.js (section 4.1).  The
    images are already on disk under [<data>/<id>/images]; creation fails
    with a validation error when there is not at least one, and otherwise
    yields a task in [QUEUED] with an empty output. *)
Definition create (data id : string) (nm : option string) (opts : Options)
    (hook : option string) (skip : bool) (now : Z) (fs : Fs.t) : string + t :=
  match fs !! path_join (path_join data id) "images" with
  | Some ((_ :: _) as images) =>
      inr (mk id nm now QUEUED opts [] None None hook skip (length images))
  | _ => inl "ValidationError: at least one image is required"
  end.

(** Modelled from the spec: Task.start (section 4.1), [QUEUED -> RUNNING]
    with [processingStart] recorded. *)
Definition start (now : Z) (k : t) : t :=
  mk (uuid k) (name k) (dateCreated k) RUNNING (options k) (output k)
     (Some now) (processingEnd k) (webhook k) (skipPostProcessing k)
     (imagesCount k).

(** Modelled from the spec: Task.cancel (section 4.1): a queued or running
    task becomes [CANCELED]; a terminal task is left as it is. *)
Definition cancel (k : t) : t :=
  if is_terminal (status k) then k else with_status CANCELED k.

(** Modelled from the spec: Task.restart (section 4.1): output and
    processing times are cleared, the options are replaced when new ones are
    given, and the task is queued again. *)
Definition restart (newOptions : option Options) (k : t) : t :=
  mk (uuid k) (name k) (dateCreated k) QUEUED
     (default (options k) newOptions) [] None None
     (webhook k) (skipPostProcessing k) (imagesCount k).

(** Modelled from the spec: [processingTime] of section 3. *)
Definition processingTime (now : Z) (k : t) : Z :=
  match status k, processingStart k, processingEnd k with
  | QUEUED, _, _ => 0
  | RUNNING, Some s, _ => now - s
  | _, Some s, Some e => e - s
  | _, _, _ => 0
  end.

(** Modelled from the spec: Task.getInfo (section 4.1), with the property
    names of the swagger block of /task/{uuid}/info. *)
Definition getInfo (now : Z) (k : t) : Json :=
  JObj [("uuid", JStr (uuid k));
        ("name", of_opt (name k));
        ("dateCreated", JNum (dateCreated k));
        ("processingTime", JNum (processingTime now k));
        ("status", JNum (status_code (status k)));
        ("options", JArr (map (fun o => JObj [("name", JStr (fst o));
                                              ("value", JStr (snd o))])
                              (options k)));
        ("imagesCount", JNum (Z.of_nat (imagesCount k)))].

(** Modelled from the spec: Task.getOutput of libs/Task.js (section 4.1):
    the output sliced from [fromLine]. *)
Definition getOutput (fromLine : nat) (k : t) : list string :=
  drop fromLine (output k).

End Task.

(** ** The Task Manager

    [libs/TaskManager.js] lies outside index.js; the state and the
    operations follow sections 3 and 4.4 of the specification. *)

Module TaskManager.

(** Modelled from the spec: the state the Task Manager owns (section 3,
    libs/TaskManager.js); the count of running tasks is read off the tasks. *)
Record t := mk {
  tasks : list Task.t;                 (* insertion order = creation order *)
  queue : list string;                 (* FIFO of ids awaiting a slot *)
  maxParallelTasks : option nat        (* [None]: unbounded *)
}.

(** Modelled from the spec: TaskManager.find (section 4.4). *)
Definition find (id : string) (m : t) : option Task.t :=
  List.find (fun k => String.eqb (Task.uuid k) id) (tasks m).

(** Modelled from the spec: [count(RUNNING)] and the free-slot test of the
    scheduler (section 4.4). *)
Definition running_count (ks : list Task.t) : nat :=
  length (filter (fun k => Task.status k = RUNNING) ks).

Definition has_slot (limit : option nat) (ks : list Task.t) : bool :=
  match limit with
  | Some n => Nat.ltb (running_count ks) n
  | None => true
  end.

Definition update (id : string) (f : Task.t -> Task.t) (ks : list Task.t)
    : list Task.t :=
  map (fun k => if String.eqb (Task.uuid k) id then f k else k) ks.

Definition status_of (id : string) (ks : list Task.t) : option Status :=
  Task.status <$> List.find (fun k => String.eqb (Task.uuid k) id) ks.

(** Modelled from the spec: the scheduler pass of section 4.4.  While a slot
    is free and the queue is not empty, the head id is popped and its task is
    started if it is still [QUEUED]. *)
Fixpoint schedule (now : Z) (limit : option nat) (ks : list Task.t)
    (q : list string) : list Task.t * list string :=
  match q with
  | [] => (ks, [])
  | id :: q' =>
      if has_slot limit ks then
        match status_of id ks with
        | Some QUEUED => schedule now limit (update id (Task.start now) ks) q'
        | _ => schedule now limit ks q'
        end
      else (ks, q)
  end.

Definition scheduled (now : Z) (limit : option nat) (ks : list Task.t)
    (q : list string) : t :=
  let '(ks', q') := schedule now limit ks q in mk ks' q' limit.

(** Modelled from the spec: dropping an id from the admission queue
    (section 2, "adjusting the run queue as needed"). *)
Definition dequeue (id : string) (q : list string) : list string :=
  filter (fun x => x ≠ id) q.

(** Modelled from the spec: TaskManager.addNew (section 4.4). *)
Definition addNew (now : Z) (k : Task.t) (m : t) : t :=
  scheduled now (maxParallelTasks m) (tasks m ++ [k]) (queue m ++ [Task.uuid k]).

(** Modelled from the spec: the message of [UUIDNotFound] (section 7), worded
    as [getTaskFromUuid] words it. *)
Definition not_found (id : string) : string := id +:+ " not found".

(** Modelled from the spec: TaskManager.cancel (section 4.4).  The result
    is the manager afterwards and the error handed to the callback. *)
Definition cancel (now : Z) (id : string) (m : t) : t * option string :=
  match find id m with
  | None => (m, Some (not_found id))
  | Some _ =>
      (scheduled now (maxParallelTasks m) (update id Task.cancel (tasks m))
                 (dequeue id (queue m)), None)
  end.

(** Modelled from the spec: the directories a task owns on disk (section 6,
    directory layout). *)
Definition task_dirs (data id : string) : list string :=
  [path_join (path_join data id) "images";
   path_join (path_join data id) "gpc";
   path_join data id].

(** Modelled from the spec: TaskManager.remove (section 4.4): the task is
    cancelled if running, dropped from the manager, and its directories are
    deleted. *)
Definition remove (now : Z) (data id : string) (m : t) (fs : Fs.t)
    : t * Fs.t * option string :=
  match find id m with
  | None => (m, fs, Some (not_found id))
  | Some _ =>
      (scheduled now (maxParallelTasks m)
                 (filter (fun k => Task.uuid k ≠ id) (tasks m))
                 (dequeue id (queue m)),
       foldr Fs.rimraf fs (task_dirs data id), None)
  end.

(** Modelled from the spec: TaskManager.restart (section 4.4): legal from a
    terminal state or from [RUNNING] (cancelled first); a task that is still
    queued is left alone and the illegal transition is reported. *)
Definition restart (now : Z) (id : string) (newOptions : option Options)
    (m : t) : t * option string :=
  match find id m with
  | None => (m, Some (not_found id))
  | Some k =>
      match Task.status k with
      | QUEUED => (m, Some ("IllegalTransition: " +:+ id +:+ " is queued"))
      | _ =>
          (scheduled now (maxParallelTasks m)
                     (update id (fun k => Task.restart newOptions (Task.cancel k))
                             (tasks m))
                     (dequeue id (queue m) ++ [id]), None)
      end
  end.

End TaskManager.

(** ** Requests, configuration and the world the routes act on *)

(** [req.body.options]: the raw form field (possibly absent) until
    [odmInfo.filterOptions] has replaced it by the validated list. *)
Inductive BodyOptions :=
| Raw (v : option string)
| Parsed (opts : Options).

Definition options_truthy (o : BodyOptions) : bool :=
  match o with
  | Raw v => truthy v
  | Parsed _ => true
  end.

(** The options handed on to the Task Manager: the validated list, or
    nothing when the field was absent or empty. *)
Definition new_options (o : BodyOptions) : option Options :=
  match o with
  | Parsed opts => Some opts
  | Raw _ => None
  end.

Record Request := mkRequest {
  set_uuid : option string;              (* req.get('set-uuid') *)
  files : option (list string);          (* req.files, by original name;
                                            undefined unless multer set it *)
  body_zipurl : option string;
  body_name : option string;
  body_webhook : option string;
  body_skipPostProcessing : option string;
  body_options : BodyOptions;
  body_uuid : option string;
  body_json : string;                    (* JSON.stringify(req.body) *)
  params_uuid : string;
  params_asset : option string;
  query_line : option nat;               (* req.query.line, as a line number *)
  id : string;                           (* req.id *)
  task : option Task.t                   (* req.task *)
}.

Definition with_id (v : string) (r : Request) : Request :=
  mkRequest (set_uuid r) (files r) (body_zipurl r) (body_name r) (body_webhook r)
    (body_skipPostProcessing r) (body_options r) (body_uuid r) (body_json r)
    (params_uuid r) (params_asset r) (query_line r) v (task r).

Definition with_task (k : Task.t) (r : Request) : Request :=
  mkRequest (set_uuid r) (files r) (body_zipurl r) (body_name r) (body_webhook r)
    (body_skipPostProcessing r) (body_options r) (body_uuid r) (body_json r)
    (params_uuid r) (params_asset r) (query_line r) (id r) (Some k).

Definition with_options (o : BodyOptions) (r : Request) : Request :=
  mkRequest (set_uuid r) (files r) (body_zipurl r) (body_name r) (body_webhook r)
    (body_skipPostProcessing r) o (body_uuid r) (body_json r)
    (params_uuid r) (params_asset r) (query_line r) (id r) (task r).

Record Config := mkConfig {
  port : Z;
  maxImages : option nat;
  powercycle : bool;
  test : bool
}.

(** What an archive yields when opened and extracted by node-stream-zip. *)
Inductive ZipOutcome :=
| ZipOpenError (msg : string)          (* 'error' event, an Error object *)
| ZipExtractError (stack : string)     (* extract called back with err *)
| ZipExtracted (names : list string).  (* extract called back with a count *)

(** Everything observable that a handler does, in order. *)
Inductive Event :=
| Respond (body : Json)
| Stream (path : string) (headers : list (string * string))
| Log (level msg : string)
| CallFilterOptions (o : BodyOptions)
| CallAddNew (id : string)
| CallCancel (id : string)
| CallRemove (id : string)
| CallRestart (id : string) (opts : option Options)
| CallDumpTaskList
| WriteSnapshot (tasks : list Task.t)
| CallAuthCleanup
| CallInit (what : string)
| ServerClose
| Exit (code : Z)
| Uncaught (msg : string).

Record World := mkWorld {
  fs : Fs.t;
  tm : TaskManager.t;
  snapshot : option (list Task.t);       (* the on-disk task dump *)
  trace : list Event
}.

Definition emit (e : Event) (w : World) : World :=
  mkWorld (fs w) (tm w) (snapshot w) (trace w ++ [e]).

Definition set_fs (f : Fs.t) (w : World) : World :=
  mkWorld f (tm w) (snapshot w) (trace w).

Definition set_tm (m : TaskManager.t) (w : World) : World :=
  mkWorld (fs w) m (snapshot w) (trace w).



(** The collaborators of index.js that live outside it, as the outcomes
    they produce for one request. *)
Record Env := mkEnv {
  config : Config;
  Directories_data : string;
  (* auth.getMiddleware(): [None] calls next(), [Some body] answers itself *)
  authCheck : Request -> option Json;
  uuidv4 : string;
  (* odmInfo.filterOptions: an Error message or the validated list *)
  filterOptions : BodyOptions -> string + Options;
  (* request.head(uri): an Error message when the URL cannot be fetched *)
  head_error : string -> option string;
  zip : string -> ZipOutcome;
  now : Z;
  getAssetsArchivePath : Task.t -> string -> option string;
  mime_getType : string -> string;
  file_size : string -> Z;
  (* fs.writeFile of the snapshot, auth.cleanup: Error messages on failure *)
  snapshot_write_error : option string;
  auth_cleanup_error : option string
}.

Definition show_nat (n : nat) : string := NilZero.string_of_uint (Nat.to_uint n).
Definition show_Z (n : Z) : string := NilZero.string_of_int (Z.to_int n).

(** String concatenation with a value that may be [undefined]. *)
Definition show_opt (v : option string) : string := default "undefined" v.

(** ** async.series and async.eachSeries

    A step receives its callback and the current state; the state is
    threaded through the callbacks.  The first truthy error ends the run and
    is handed to the final callback. *)

Definition Step (S : Type) : Type := (option Err -> S -> World) -> S -> World.

Fixpoint eachSeries {S A : Type} (items : list A) (iteratee : A -> Step S)
    (final : option Err -> S -> World) (s : S) : World :=
  match items with
  | [] => final None s
  | x :: rest =>
      iteratee x
        (fun err s' =>
           match err with
           | Some e => if err_truthy e then final (Some e) s'
                       else eachSeries rest iteratee final s'
           | None => eachSeries rest iteratee final s'
           end) s
  end.

Definition series {S : Type} (steps : list (Step S))
    (final : option Err -> S -> World) (s : S) : World :=
  eachSeries steps (fun step => step) final s.

(** ** Middleware shared by the routes *)

Definition error_body (msg : Json) : Json := JObj [("error", msg)].

Definition respond (body : Json) (w : World) : World := emit (Respond body) w.

Definition Next : Type := Request -> World -> World.

Definition auth_mw (env : Env) (req : Request) (next : Next) (w : World) : World :=
  match authCheck env req with
  | Some body => respond body w
  | None => next req w
  end.

(** The error-handling middleware (lines 846-849): where Express sends an
    error raised synchronously in a handler. *)
Definition express_error (msg : string) (w : World) : World :=
  respond (error_body (JStr msg)) (emit (Log "error" msg) w).

(** The message of the TypeError that reading [req.body.zipurl] throws when
    [req.body] is undefined. *)
Definition body_undefined_message : string :=
  "Cannot read property 'zipurl' of undefined".

(** ** POST /task/new (lines 154-316) *)

(** The first middleware: a caller may suggest the UUID of the task. *)
Definition set_uuid_mw (env : Env) (req : Request) (next : Next) (w : World)
    : World :=
  if truthy (set_uuid req) then
    let userUuid := default EmptyString (set_uuid req) in
    if (valid_uuid userUuid
        && negb (bool_decide (is_Some (TaskManager.find userUuid (tm w)))))%bool
    then next (with_id userUuid req) w
    else respond (error_body (JStr ("Invalid set-uuid: " +:+ userUuid))) w
  else next (with_id (uuidv4 env) req) w.

(** The [destination] callback of the multer storage (lines 66-77): the
    upload directory of the request, created on first use. *)
Definition destination (req : Request) (w : World) : string * World :=
  let dstPath := path_join "tmp" (id req) in
  if Fs.exists_sync (fs w) dstPath then (dstPath, w)
  else (dstPath, set_fs (fst (Fs.mkdir dstPath (fs w))) w).

(** [upload.array('images')]: each file is stored under its original name
    in the directory [destination] yields.  An upload that multer itself
    gives up on is not covered.  multer acts on multipart/form-data requests
    only, and sets [req.files] and [req.body] together; any other request
    passes through with both left undefined ([files req = None]), since no
    other body parser is mounted on this route. *)
Definition store_upload (req : Request) (w : World) (file : string) : World :=
  let '(dstPath, w1) := destination req w in
  set_fs (Fs.write_file dstPath file (fs w1)) w1.

Definition upload_array (req : Request) (next : Next) (w : World) : World :=
  next req (foldl (store_upload req) w (default [] (files req))).

Definition has_files (req : Request) : bool :=
  match files req with
  | Some (_ :: _) => true
  | _ => false
  end.

(** [config.maxImages && count > config.maxImages] *)
Definition over_limit (cfg : Config) (count : nat) : bool :=
  match maxImages cfg with
  | Some limit => (negb (Nat.eqb limit 0) && Nat.ltb limit count)%bool
  | None => false
  end.

Definition limit_message (cfg : Config) (count : nat) : string :=
  show_nat count +:+ " images uploaded, but this node can only process up to "
  +:+ show_opt (show_nat <$> maxImages cfg) +:+ ".".

(** [die] (lines 179-186): print the error message and clean up. *)
Definition die (srcPath : string) (error : option string) (w : World) : World :=
  let w1 := respond (error_body (of_opt error)) w in
  match Fs.stat (fs w1) srcPath with
  | Fs.Stats true => set_fs (Fs.rimraf srcPath (fs w1)) w1
  | _ => w1
  end.

Section TaskNew.

Variable env : Env.

Definition State : Type := Request * World.

Definition srcPath (req : Request) : string := path_join "tmp" (id req).
Definition destPath (req : Request) : string :=
  path_join (Directories_data env) (id req).
Definition destImagesPath (req : Request) : string :=
  path_join (destPath req) "images".
Definition destGpcPath (req : Request) : string :=
  path_join (destPath req) "gpc".

(** Lines 197-205. *)
Definition step_filter_options : Step State :=
  fun cb '(req, w) =>
    let w1 := emit (CallFilterOptions (body_options req)) w in
    match filterOptions env (body_options req) with
    | inl msg => cb (Some (ErrObj msg)) (req, w1)
    | inr opts => cb None (with_options (Parsed opts) req, w1)
    end.

(** Lines 208-217.  When [fs.stat] succeeds [err] is [null], and building
    the message of the [else] branch reads [err.code]: a TypeError raised
    inside the callback, so [cb] is never reached. *)
Definition step_check_dest : Step State :=
  fun cb '(req, w) =>
    if has_files req then
      match Fs.stat (fs w) (destPath req) with
      | Fs.StatError code =>
          if String.eqb code "ENOENT" then cb None (req, w)
          else cb (Some (ErrObj ("Directory exists (should not have happened: "
                                 +:+ code +:+ ")"))) (req, w)
      | Fs.Stats _ =>
          emit (Uncaught "TypeError: Cannot read property 'code' of null") w
      end
    else cb None (req, w).

(** [download] (lines 52-59): HEAD the URL, then pipe it into the file. *)
Definition download (uri dir file : string) : Step State :=
  fun cb '(req, w) =>
    match head_error env uri with
    | Some msg => cb (Some (ErrObj msg)) (req, w)
    | None => cb None (req, set_fs (Fs.write_file dir file (fs w)) w)
    end.

(** Lines 220-235. *)
Definition step_zipurl : Step State :=
  fun cb '(req, w) =>
    if truthy (body_zipurl req) then
      let archive := "zipurl.zip" in
      let '(dstPath, w1) := destination req w in
      download (default EmptyString (body_zipurl req)) dstPath archive cb (req, w1)
    else cb None (req, w).

Definition step_mkdir (p : Request -> string) : Step State :=
  fun cb '(req, w) =>
    let '(f, err) := Fs.mkdir (p req) (fs w) in
    cb (ErrObj <$> err) (req, set_fs f w).

(** Line 239. *)
Definition step_move_uploads : Step State :=
  fun cb '(req, w) =>
    let '(f, err) := Fs.mv_dir (srcPath req) (destImagesPath req) (fs w) in
    cb (ErrObj <$> err) (req, set_fs f w).

(** Lines 247-275, for one directory entry.  After an extraction error the
    callback is invoked a second time (the count is [undefined], so the limit
    test is false and the [else] branch runs); async refuses the second call
    by throwing. *)
Definition extract_entry (entry : string) : Step State :=
  fun cb '(req, w) =>
    if is_zip entry then
      match zip env (path_join (destImagesPath req) entry) with
      | ZipOpenError msg => cb (Some (ErrObj msg)) (req, w)
      | ZipExtractError stack =>
          let w1 := cb (Some (ErrStr "Extract error"))
                       (req, emit (Log "error" stack) w) in
          emit (Uncaught "Error: Callback was already called.") w1
      | ZipExtracted names =>
          let count := length names in
          let f := foldl (fun f n => Fs.write_file (destImagesPath req) n f)
                         (fs w) names in
          let w1 := emit (Log "info" ("Extracted " +:+ show_nat count +:+ " entries"))
                         (set_fs f w) in
          if over_limit (config env) count
          then cb (Some (ErrStr (limit_message (config env) count))) (req, w1)
          else cb None (req, w1)
      end
    else cb None (req, w).

(** Lines 241-279. *)
Definition step_extract_zips : Step State :=
  fun cb '(req, w) =>
    match Fs.readdir (destImagesPath req) (fs w) with
    | inl msg => cb (Some (ErrObj msg)) (req, w)
    | inr entries => eachSeries entries extract_entry cb (req, w)
    end.

(** Lines 287-293, for one directory entry. *)
Definition sort_entry (entry : string) : Step State :=
  fun cb '(req, w) =>
    if is_txt entry then
      cb None (req, set_fs (Fs.mv_file (destImagesPath req) (destGpcPath req)
                                       entry (fs w)) w)
    else if is_zip entry then
      cb None (req, set_fs (Fs.unlink (destImagesPath req) entry (fs w)) w)
    else cb None (req, w).

(** Lines 281-296. *)
Definition step_move_gcp : Step State :=
  fun cb '(req, w) =>
    match Fs.readdir (destImagesPath req) (fs w) with
    | inl msg => cb (Some (ErrObj msg)) (req, w)
    | inr entries => eachSeries entries sort_entry cb (req, w)
    end.

(** Lines 299-310. *)
Definition step_create_task : Step State :=
  fun cb '(req, w) =>
    match Task.create (Directories_data env) (id req) (body_name req)
            (default [] (new_options (body_options req))) (body_webhook req)
            (bool_decide (body_skipPostProcessing req = Some "true"))
            (now env) (fs w) with
    | inl msg => cb (Some (ErrObj msg)) (req, w)
    | inr k =>
        let w1 := emit (CallAddNew (Task.uuid k)) w in
        let w2 := set_tm (TaskManager.addNew (now env) k (tm w1)) w1 in
        cb None (req, respond (JObj [("uuid", JStr (id req))]) w2)
    end.

Definition task_new_steps : list (Step State) :=
  [step_filter_options; step_check_dest; step_zipurl;
   step_mkdir destPath; step_mkdir destGpcPath; step_move_uploads;
   step_extract_zips; step_move_gcp; step_create_task].

(** Lines 311-313. *)
Definition task_new_final : option Err -> State -> World :=
  fun err '(req, w) =>
    match err with
    | Some e => if err_truthy e then die (srcPath req) (message e) w else w
    | None => w
    end.

(** The handler proper (lines 171-316).  Without [req.files] the test of
    line 188 goes on to read [req.body.zipurl]; [req.body] is undefined for
    such a request (see [upload_array]), so a TypeError is thrown in the
    handler and Express hands it to the error middleware: [die] does not
    run. *)
Definition task_new_handler (req : Request) (w : World) : World :=
  match files req with
  | None => express_error body_undefined_message w
  | Some fl =>
      if (negb (has_files req) && negb (truthy (body_zipurl req)))%bool then
        die (srcPath req) (Some "Need at least 1 file or a zip file url.") w
      else if over_limit (config env) (length fl) then
        die (srcPath req) (Some (limit_message (config env) (length fl))) w
      else series task_new_steps task_new_final (req, w)
  end.

Definition post_task_new (req : Request) (w : World) : World :=
  auth_mw env req
    (fun req => set_uuid_mw env req
       (fun req => upload_array req task_new_handler)) w.

End TaskNew.

(** ** Task lookups (lines 318-491) *)

Definition getTaskFromUuid (req : Request) (next : Next) (w : World) : World :=
  match TaskManager.find (params_uuid req) (tm w) with
  | Some k => next (with_task k req) w
  | None => respond (error_body (JStr (params_uuid req +:+ " not found"))) w
  end.

(** Reading a property of [req.task] when no task is attached raises a
    TypeError, which Express hands to the error middleware. *)
Definition with_req_task (req : Request) (f : Task.t -> World -> World)
    (w : World) : World :=
  match task req with
  | Some k => f k w
  | None => express_error "TypeError: Cannot read property of undefined" w
  end.

Section Lookups.

Variable env : Env.

Definition task_info_handler (req : Request) (w : World) : World :=
  with_req_task req (fun k => respond (Task.getInfo (now env) k)) w.

Definition get_task_info (req : Request) (w : World) : World :=
  auth_mw env req (fun req => getTaskFromUuid req task_info_handler) w.

(** Line 435; the [line] query parameter defaults to 0. *)
Definition task_output_handler (req : Request) (w : World) : World :=
  with_req_task req
    (fun k => respond (JArr (JStr <$> Task.getOutput (default 0%nat (query_line req)) k)))
    w.

Definition get_task_output (req : Request) (w : World) : World :=
  auth_mw env req (fun req => getTaskFromUuid req task_output_handler) w.

(** Lines 474-491. *)
Definition task_download_handler (req : Request) (w : World) : World :=
  with_req_task req
    (fun k w =>
       let asset := default "all.zip" (params_asset req) in
       let filePath := getAssetsArchivePath env k asset in
       if truthy filePath then
         let p := default EmptyString filePath in
         if Fs.exists_sync (fs w) p then
           match Fs.stat (fs w) p with
           | Fs.Stats _ =>
               emit (Stream p
                       [("Content-Disposition", "attachment; filename=" +:+ asset);
                        ("Content-Type", mime_getType env p);
                        ("Content-Length", show_Z (file_size env p))]) w
           | Fs.StatError code =>
               express_error (code +:+ ": no such file or directory, stat '"
                              +:+ p +:+ "'") w
           end
         else respond (error_body (JStr "Asset not ready")) w
       else respond (error_body (JStr "Invalid asset")) w)
    w.

Definition get_task_download (req : Request) (w : World) : World :=
  auth_mw env req (fun req => getTaskFromUuid req task_download_handler) w.

End Lookups.

(** ** Cancel, remove, restart (lines 515-626) *)

Definition uuidCheck (req : Request) (next : Next) (w : World) : World :=
  if negb (truthy (body_uuid req)) then
    respond (error_body (JStr ("uuid param missing and body is [" +:+ body_json req
                               +:+ "]."))) w
  else next req w.

(** [successHandler(res)], applied to the error the Task Manager reports. *)
Definition successHandler (err : option Err) (w : World) : World :=
  match err with
  | Some e =>
      if err_truthy e
      then respond (JObj [("success", JBool false); ("error", of_opt (message e))]) w
      else respond (JObj [("success", JBool true)]) w
  | None => respond (JObj [("success", JBool true)]) w
  end.

Section Commands.

Variable env : Env.

Definition task_cancel_handler (req : Request) (w : World) : World :=
  let uuid := default EmptyString (body_uuid req) in
  let w1 := emit (CallCancel uuid) w in
  let '(m, err) := TaskManager.cancel (now env) uuid (tm w1) in
  successHandler (ErrObj <$> err) (set_tm m w1).

Definition post_task_cancel (req : Request) (w : World) : World :=
  auth_mw env req (fun req => uuidCheck req task_cancel_handler) w.

Definition task_remove_handler (req : Request) (w : World) : World :=
  let uuid := default EmptyString (body_uuid req) in
  let w1 := emit (CallRemove uuid) w in
  let '(m, f, err) :=
    TaskManager.remove (now env) (Directories_data env) uuid (tm w1) (fs w1) in
  successHandler (ErrObj <$> err) (set_fs f (set_tm m w1)).

Definition post_task_remove (req : Request) (w : World) : World :=
  auth_mw env req (fun req => uuidCheck req task_remove_handler) w.

(** Lines 614-623: options, when supplied, go through the validator. *)
Definition restart_options_mw (req : Request) (next : Next) (w : World) : World :=
  if options_truthy (body_options req) then
    let w1 := emit (CallFilterOptions (body_options req)) w in
    match filterOptions env (body_options req) with
    | inl msg => respond (error_body (JStr msg)) w1
    | inr opts => next (with_options (Parsed opts) req) w1
    end
  else next req w.

(** Lines 624-626. *)
Definition task_restart_handler (req : Request) (w : World) : World :=
  let uuid := default EmptyString (body_uuid req) in
  let opts := new_options (body_options req) in
  let w1 := emit (CallRestart uuid opts) w in
  let '(m, err) := TaskManager.restart (now env) uuid opts (tm w1) in
  successHandler (ErrObj <$> err) (set_tm m w1).

Definition post_task_restart (req : Request) (w : World) : World :=
  auth_mw env req
    (fun req => uuidCheck req
       (fun req => restart_options_mw req task_restart_handler)) w.

End Commands.

(** ** Graceful shutdown (lines 851-868) *)



Section Shutdown.

Variable env : Env.

(** [process.exit]: the process ends there and nothing of the program runs
    afterwards, so what the process leaves behind is decided by the world in
    which it is called.  The shutdown path is defined for every such ending;
    [halt] below is the one that records the exit code in the trace. *)
Variable process_exit : Z -> World -> World.





End Shutdown.


(** ** Startup (lines 870-898) *)

(** What each startup collaborator calls back with: an Error message, or
    nothing on success.  [listen] is the outcome of binding the port:
    [app.listen(port, f)] registers [f] for the server's 'listening' event
    only, so [f] runs, without argument, when the port is bound; a failure
    to bind is an 'error' event of the server, for which index.js has no
    listener: it is raised, [f] never runs and the series is never called
    back. *)
Record Boot := mkBoot {
  odmInfo_initialize : option string;
  auth_initialize : option string;
  S3_initialize : option string;
  TaskManager_new : TaskManager.t * option string;
  listen : option string
}.

Section Startup.

Variable cfg : Config.
Variable boot : Boot.

Definition init_step (what : string) (outcome : option string) : Step World :=
  fun cb w => cb (ErrObj <$> outcome) (emit (CallInit what) w).

Definition commands : list (Step World) :=
  [ init_step "odmInfo.initialize" (odmInfo_initialize boot);
    init_step "auth.initialize" (auth_initialize boot);
    init_step "S3.initialize" (S3_initialize boot);
    (fun cb w =>
       cb (ErrObj <$> snd (TaskManager_new boot))
          (set_tm (fst (TaskManager_new boot)) (emit (CallInit "new TaskManager") w)));
    (fun cb w =>
       let w1 := emit (CallInit "app.listen") w in
       match listen boot with
       | None => cb None (emit (Log "info" ("Server has started on port "
                                            +:+ show_Z (port cfg))) w1)
       | Some msg => emit (Uncaught msg) w1
       end) ]
  ++ (if powercycle cfg
      then [ (fun cb w =>
                emit (Exit 0)
                  (emit (Log "info" "Power cycling is set, application will shut down...")
                        w)) : Step World ]
      else []).

Definition startup_final : option Err -> World -> World :=
  fun err w =>
    match err with
    | Some e =>
        if err_truthy e
        then emit (Exit 1)
               (emit (Log "error" ("Error during startup: " +:+ show_opt (message e))) w)
        else w
    | None => w
    end.

Definition startup (w : World) : World :=
  let w0 := if test cfg then emit (Log "info" "Running in test mode") w else w in
  series commands startup_final w0.

End Startup.

(** ** Readings of the specification used in the statements below *)

(** The events a handler added to the trace. *)
Definition appended (w w' : World) (evs : list Event) : Prop :=
  trace w' = trace w ++ evs.

(** A body of the swagger [Response] shape: [{success: true}] or
    [{success: false, error}]. *)
Definition success_shaped (body : Json) : Prop :=
  body = JObj [("success", JBool true)] \/
  exists msg, body = JObj [("success", JBool false); ("error", JStr msg)].

Definition is_exit (e : Event) : bool :=
  match e with
  | Exit _ => true
  | _ => false
  end.

Definition is_uncaught (e : Event) : bool :=
  match e with
  | Uncaught _ => true
  | _ => false
  end.

Definition is_restart_call (e : Event) : bool :=
  match e with
  | CallRestart _ _ => true
  | _ => false
  end.

(** The request served as if it carried no set-uuid header. *)
Definition without_set_uuid (r : Request) : Request :=
  mkRequest None (files r) (body_zipurl r) (body_name r) (body_webhook r)
    (body_skipPostProcessing r) (body_options r) (body_uuid r) (body_json r)
    (params_uuid r) (params_asset r) (query_line r) (id r) (task r).

(** "An id is generated for the task instead of using the supplied one". *)
Definition served_with_generated_id (env : Env) (req : Request) (w : World) : Prop :=
  post_task_new env req w = post_task_new env (without_set_uuid req) w.

(** The bodies answered, in order. *)
Definition answers (evs : list Event) : list Json :=
  omap (fun e => match e with Respond body => Some body | _ => None end) evs.

(** Whether an exception escaped from a callback. *)
Definition raised (evs : list Event) : bool := existsb is_uncaught evs.

(** How the creation of a task for the id [i] can end, given the Task Manager
    [m0] before it, the world [w'] after it and the events [evs] in between:
    the task was added and its id answered; or an exception escaped; or the
    request was answered with one error body and its upload directory is
    gone.  The Task Manager changes in the first case only. *)
Definition outcome (env : Env) (i : string) (m0 : TaskManager.t) (w' : World)
    (evs : list Event) : Prop :=
  (exists k, Task.uuid k = i /\
             tm w' = TaskManager.addNew (now env) k m0 /\
             answers evs = [JObj [("uuid", JStr i)]]) \/
  (tm w' = m0 /\ raised evs = true) \/
  (tm w' = m0 /\ raised evs = false /\
   (exists x, answers evs = [error_body x]) /\
   Fs.is_dir (fs w') (path_join "tmp" i) = false).

Definition settled (env : Env) (i : string) (w0 w' : World) : Prop :=
  exists evs, appended w0 w' evs /\ outcome env i (tm w0) w' evs.

(** The Error message of the first startup step that fails, if any. *)
Definition first_error (boot : Boot) : option string :=
  match odmInfo_initialize boot, auth_initialize boot, S3_initialize boot,
        snd (TaskManager_new boot), listen boot with
  | Some m, _, _, _, _ => Some m
  | None, Some m, _, _, _ => Some m
  | None, None, Some m, _, _ => Some m
  | None, None, None, Some m, _ => Some m
  | None, None, None, None, o => o
  end.

(** The Error message that reaches the final callback of the startup
    series: that of the first failing step among those that hand their error
    to their callback, the four before [app.listen]. *)
Definition reported_error (boot : Boot) : option string :=
  match odmInfo_initialize boot, auth_initialize boot, S3_initialize boot,
        snd (TaskManager_new boot) with
  | Some m, _, _, _ => Some m
  | None, Some m, _, _ => Some m
  | None, None, Some m, _ => Some m
  | None, None, None, o => o
  end.

(** "Startup errors are the only conditions that terminate the process". *)
Definition exits_only_on_startup_error (cfg : Config) (boot : Boot) (w : World)
    : Prop :=
  forall code, Exit code ∈ trace (startup cfg boot w) -> is_Some (first_error boot).


(** The errors async acts on: a callback invoked with a falsy error
    continues the series. *)
Definition acted_on (err : option Err) : Prop :=
  match err with
  | Some e => err_truthy e = true
  | None => True
  end.

(** A step keeps [I] on the states it hands to its callback and ends in a
    world satisfying [Post], provided its callback does. *)
Definition preserves {S : Type} (I : S -> Prop) (Post : World -> Prop)
    (step : Step S) : Prop :=
  forall cb s, I s ->
    (forall err s', acted_on err -> I s' -> Post (cb err s')) -> Post (step cb s).

(** While the pipeline of /task/new runs for the request with id [i], before
    the task is created: the Task Manager is as in [w0], nothing was answered
    and nothing was raised. *)
Definition pending (i : string) (w0 : World) (s : State) : Prop :=
  id (fst s) = i /\ tm (snd s) = tm w0 /\
  exists evs, appended w0 (snd s) evs /\ answers evs = [] /\ raised evs = false.

(** ** Sample inputs *)

Definition sample_config : Config := mkConfig 3000 (Some 2%nat) false false.

Definition sample_uuid : string := "123e4567-e89b-42d3-a456-426614174000".

Definition sample_env : Env :=
  mkEnv sample_config "data" (fun _ => None)
        "9f1c2d3e-4a5b-4c6d-8e7f-001122334455"
        (fun o => match o with
                  | Raw (Some "bad") => inl "Invalid options"
                  | _ => inr [("dsm", "true")]
                  end)
        (fun _ => None)
        (fun _ => ZipExtracted ["a.jpg"; "b.jpg"; "c.jpg"]) 1000
        (fun k a => if String.eqb a "all.zip"
                    then Some (path_join (path_join "data" (Task.uuid k)) "all.zip")
                    else None)
        (fun _ => "application/zip") (fun _ => 42) None None.

Definition sample_task : Task.t :=
  Task.mk sample_uuid (Some "survey") 900 COMPLETED [] ["line 0"; "line 1"; "line 2"]
          (Some 910) (Some 990) None false 3.

Definition empty_manager : TaskManager.t := TaskManager.mk [] [] (Some 1%nat).

Definition sample_manager : TaskManager.t :=
  TaskManager.mk [sample_task] [] (Some 1%nat).

Definition empty_world : World := mkWorld ∅ empty_manager None [].

Definition sample_world : World := mkWorld ∅ sample_manager None [].

(** A request with every field absent: not multipart, no parsed body. *)
Definition blank_request : Request :=
  mkRequest None None None None None None (Raw None) None "{}" EmptyString None None EmptyString None.

Definition upload_request (header : option string) (fl : list string) : Request :=
  mkRequest header (Some fl) None None None None (Raw None) None "{}" EmptyString
            None None EmptyString None.

Definition lookup_request (uuid : string) (asset : option string)
    (line : option nat) : Request :=
  mkRequest None None None None None None (Raw None) None "{}" uuid asset line
            EmptyString None.

Definition command_request (uuid : option string) (opts : option string) : Request :=
  mkRequest None None None None None None (Raw opts) uuid "{}" EmptyString None None EmptyString None.

Definition sample_boot : Boot := mkBoot None None None (empty_manager, None) None.

Definition failing_boot : Boot :=
  mkBoot None None (Some "S3 bucket is not reachable") (empty_manager, None) None.

Definition bind_failing_boot : Boot :=
  mkBoot None None None (empty_manager, None) (Some "listen EADDRINUSE :::3000").

Definition powercycle_config : Config := mkConfig 3000 None true false.

(** ** Readings used for the further properties *)

(** An answer to the client: a JSON body or a streamed file. *)
Definition is_reply (e : Event) : bool :=
  match e with
  | Respond _ | Stream _ _ => true
  | _ => false
  end.

Definition replies (evs : list Event) : nat := length (List.filter is_reply evs).

(** A call into the Task Manager that may change it. *)
Definition is_manager_call (e : Event) : bool :=
  match e with
  | CallAddNew _ | CallCancel _ | CallRemove _ | CallRestart _ _ => true
  | _ => false
  end.

Definition manager_calls (evs : list Event) : nat :=
  length (List.filter is_manager_call evs).

(** A run that answers exactly once and leaves the Task Manager, the file
    system and the snapshot as they were. *)
Definition answered_unchanged (w w' : World) : Prop :=
  exists evs, appended w w' evs /\ replies evs = 1%nat /\
              tm w' = tm w /\ fs w' = fs w /\ snapshot w' = snapshot w.

(** A run whose last event is its only answer, with at most one call into
    the Task Manager before it; without such a call nothing changes. *)
Definition answered_at_end (w w' : World) : Prop :=
  exists evs body,
    appended w w' (evs ++ [Respond body]) /\ replies evs = 0%nat /\
    (manager_calls evs <= 1)%nat /\
    (manager_calls evs = 0%nat -> tm w' = tm w /\ fs w' = fs w) /\
    snapshot w' = snapshot w.

(** The startup collaborators in the order of [commands], and how many of
    them are invoked: all up to and including the first that fails. *)
Definition init_calls (evs : list Event) : list string :=
  omap (fun e => match e with CallInit what => Some what | _ => None end) evs.

Definition startup_order : list string :=
  ["odmInfo.initialize"; "auth.initialize"; "S3.initialize"; "new TaskManager";
   "app.listen"].

Definition steps_run (boot : Boot) : nat :=
  match odmInfo_initialize boot, auth_initialize boot, S3_initialize boot,
        snd (TaskManager_new boot) with
  | Some _, _, _, _ => 1
  | None, Some _, _, _ => 2
  | None, None, Some _, _ => 3
  | None, None, None, Some _ => 4
  | None, None, None, None => 5
  end.

(** What [sort_entry] does to the file system for one directory entry. *)
Definition sort_effect (env : Env) (req : Request) (f : Fs.t) (entry : string)
    : Fs.t :=
  if is_txt entry then
    Fs.mv_file (destImagesPath env req) (destGpcPath env req) entry f
  else if is_zip entry then Fs.unlink (destImagesPath env req) entry f
  else f.

(** Further sample inputs. *)

Definition repeated_upload : Request :=
  upload_request None ["a.jpg"; "b.jpg"; "a.jpg"].

Definition unsorted_world : World :=
  mkWorld {[ "data/x/images" := ["a.jpg"; "gcp_list.txt"; "zipurl.zip"; "b.JPG"];
             "data/x/gpc" := [] ]}
          empty_manager None [].

Definition unsorted_request : Request :=
  mkRequest None None None None None None (Raw None) None "{}" EmptyString
            None None "x" None.

Definition ready_world : World :=
  mkWorld {[ path_join "data" sample_uuid := ["all.zip"] ]} sample_manager None [].

Definition cleanup_failing_env : Env :=
  mkEnv sample_config "data" (fun _ => None)
        "9f1c2d3e-4a5b-4c6d-8e7f-001122334455"
        (fun _ => inl "Invalid options") (fun _ => Some "ENOTFOUND")
        (fun _ => ZipExtracted []) 1000 (fun _ _ => None)
        (fun _ => "application/zip") (fun _ => 42) None (Some "cleanup failed").

Definition zipurl_request : Request :=
  mkRequest None (Some []) (Some "http://example.org/images.zip") None None None
            (Raw None) None "{}" EmptyString None None EmptyString None.

Definition download_failing_env : Env :=
  mkEnv sample_config "data" (fun _ => None)
        "9f1c2d3e-4a5b-4c6d-8e7f-001122334455"
        (fun _ => inr []) (fun _ => Some "getaddrinfo ENOTFOUND example.org")
        (fun _ => ZipExtracted []) 1000 (fun _ _ => None)
        (fun _ => "application/zip") (fun _ => 42) None None.

(** What [extract_entry] does to the file system for one directory entry
    whose archive, if it is one, extracts within the limit. *)
Definition extract_effect (env : Env) (req : Request) (f : Fs.t) (entry : string)
    : Fs.t :=
  if is_zip entry then
    match zip env (path_join (destImagesPath env req) entry) with
    | ZipExtracted names =>
        foldl (fun f n => Fs.write_file (destImagesPath env req) n f) f names
    | _ => f
    end
  else f.

(** Every archive among [entries] extracts, and to no more than the limit. *)
Definition archives_within_limit (env : Env) (req : Request)
    (entries : list string) : Prop :=
  forall e, e ∈ entries -> is_zip e = true ->
    exists names,
      zip env (path_join (destImagesPath env req) e) = ZipExtracted names /\
      over_limit (config env) (length names) = false.

Definition two_archives_env : Env :=
  mkEnv sample_config "data" (fun _ => None)
        "9f1c2d3e-4a5b-4c6d-8e7f-001122334455"
        (fun _ => inr []) (fun _ => None)
        (fun p => if String.eqb p "data/x/images/a.zip"
                  then ZipExtracted ["1.jpg"; "2.jpg"]
                  else ZipExtracted ["3.jpg"; "4.jpg"])
        1000 (fun _ _ => None)
        (fun _ => "application/zip") (fun _ => 42) None None.

Definition two_archives_world : World :=
  mkWorld {[ "data/x/images" := ["a.zip"; "b.zip"] ]} empty_manager None [].

Definition stale_world : World :=
  mkWorld {[ "data/x" := ["images"; "gpc"] ]} empty_manager None [].

(** ** Proof automation *)

Ltac split_last_two :=
  lazymatch goal with
  | |- exists evs, trace ?w ++ ?l = trace ?w ++ evs ++ _ /\ _ =>
      exists (take (length l - 2) l)
  end.

(** * Properties *)

(** ** The patterns on concrete strings *)

Example valid_uuid_lower : valid_uuid "123e4567-e89b-42d3-a456-426614174000" = true.
Proof. reflexivity. Qed.

Example valid_uuid_upper : valid_uuid "123E4567-E89B-42D3-A456-426614174000" = true.
Proof. reflexivity. Qed.

Example valid_uuid_version : valid_uuid "123e4567-e89b-62d3-a456-426614174000" = false.
Proof. reflexivity. Qed.

Example valid_uuid_trailing : valid_uuid "123e4567-e89b-42d3-a456-426614174000 " = false.
Proof. reflexivity. Qed.

Example archive_names :
  is_zip "Images.ZIP" = true /\ is_zip "a.zip.txt" = false /\
  is_txt "gcp_list.TXT" = true /\ is_zip "zip" = false.
Proof. repeat split; reflexivity. Qed.

Example undefined_is_dropped :
  wire (JObj [("uuid", JStr "x"); ("error", JUndefined)]) = JObj [("uuid", JStr "x")].
Proof. reflexivity. Qed.

(** ** The world under the primitive effects *)

Lemma trace_emit e w : trace (emit e w) = trace w ++ [e].
Proof. reflexivity. Qed.

Lemma tm_emit e w : tm (emit e w) = tm w.
Proof. reflexivity. Qed.

Lemma fs_emit e w : fs (emit e w) = fs w.
Proof. reflexivity. Qed.

Lemma appended_refl w : appended w w [].
Proof. unfold appended. by rewrite app_nil_r. Qed.

Lemma appended_emit w w' evs e :
  appended w w' evs -> appended w (emit e w') (evs ++ [e]).
Proof. unfold appended. intros H. by rewrite trace_emit, H, app_assoc. Qed.

Lemma appended_trans w1 w2 w3 evs1 evs2 :
  appended w1 w2 evs1 -> appended w2 w3 evs2 -> appended w1 w3 (evs1 ++ evs2).
Proof. unfold appended. intros H1 H2. by rewrite H2, H1, app_assoc. Qed.

Lemma stat_not_dir f p : Fs.stat f p ≠ Fs.Stats true -> Fs.is_dir f p = false.
Proof. unfold Fs.stat. destruct (Fs.is_dir f p); [congruence | done]. Qed.

Lemma is_dir_rimraf f p : Fs.is_dir (Fs.rimraf p f) p = false.
Proof.
  unfold Fs.is_dir, Fs.rimraf. apply bool_decide_eq_false_2.
  rewrite lookup_delete_eq. by intros [? ?].
Qed.

(** [die] answers once with the error and leaves no upload directory. *)
Lemma die_trace p e w :
  trace (die p e w) = trace w ++ [Respond (error_body (of_opt e))].
Proof. unfold die. by destruct (Fs.stat _ _) as [[]|]. Qed.

Lemma die_tm p e w : tm (die p e w) = tm w.
Proof. unfold die. by destruct (Fs.stat _ _) as [[]|]. Qed.

Lemma die_cleans p e w : Fs.is_dir (fs (die p e w)) p = false.
Proof.
  unfold die. destruct (Fs.stat _ _) as [[]|] eqn:E; simpl.
  - apply is_dir_rimraf.
  - apply stat_not_dir. simpl in E. congruence.
  - apply stat_not_dir. simpl in E. congruence.
Qed.

Lemma has_files_with_id v req : has_files (with_id v req) = has_files req.
Proof. reflexivity. Qed.

Lemma no_files_default req : has_files req = false -> default [] (files req) = [].
Proof. unfold has_files. by destruct (files req) as [[|]|]. Qed.

(** ** Task creation without input *)

Lemma handler_without_body env req w :
  files req = None ->
  task_new_handler env req w = express_error body_undefined_message w.
Proof. intros Hf. unfold task_new_handler. by rewrite Hf. Qed.

Lemma handler_needs_input env req w :
  files req = Some [] -> truthy (body_zipurl req) = false ->
  task_new_handler env req w =
  die (srcPath req) (Some "Need at least 1 file or a zip file url.") w.
Proof.
  intros Hf Hz. unfold task_new_handler, has_files. by rewrite Hf, Hz.
Qed.

Lemma upload_nothing env req w :
  has_files req = false ->
  upload_array req (task_new_handler env) w = task_new_handler env req w.
Proof. intros Hf. unfold upload_array. by rewrite (no_files_default _ Hf). Qed.

(** Without a (non-empty) set-uuid header an authorised request reaches the
    handler under the generated id. *)
Lemma reaches_handler env req w :
  authCheck env req = None -> truthy (set_uuid req) = false ->
  post_task_new env req w
  = upload_array (with_id (uuidv4 env) req) (task_new_handler env) w.
Proof.
  intros Ha Hh. unfold post_task_new, auth_mw, set_uuid_mw. by rewrite Ha, Hh.
Qed.

(** C2: a POST /task/new request that is not multipart/form-data has no
    uploaded files and no zipurl, yet it is not answered with the validation
    error of line 188: the test reads [req.body.zipurl] while [req.body] is
    undefined, so the error middleware logs the TypeError and answers with
    its message.  No task is created and the file system is left as it was.
    A multipart request without files and without zipurl, by contrast, is
    answered "Need at least 1 file or a zip file url." *)
Theorem C2_request_without_body env req w :
  authCheck env req = None -> truthy (set_uuid req) = false ->
  files req = None ->
  let w' := post_task_new env req w in
  appended w w' [Log "error" body_undefined_message;
                 Respond (error_body (JStr body_undefined_message))] /\
  body_undefined_message <> "Need at least 1 file or a zip file url." /\
  tm w' = tm w /\ fs w' = fs w /\
  (forall form,
     authCheck env form = None -> truthy (set_uuid form) = false ->
     files form = Some [] -> truthy (body_zipurl form) = false ->
     appended w (post_task_new env form w)
       [Respond (error_body (JStr "Need at least 1 file or a zip file url."))] /\
     tm (post_task_new env form w) = tm w).
Proof.
  intros Ha Hh Hf w'. subst w'.
  rewrite (reaches_handler env req w Ha Hh), upload_nothing
    by (unfold has_files; simpl; by rewrite Hf).
  rewrite handler_without_body by exact Hf.
  split; [unfold appended, express_error, respond; simpl; by rewrite <- app_assoc|].
  split; [discriminate|]. split; [done|]. split; [done|].
  intros form Ha' Hh' Hf' Hz.
  rewrite (reaches_handler env form w Ha' Hh'), upload_nothing
    by (unfold has_files; simpl; by rewrite Hf').
  rewrite handler_needs_input by done.
  split; [apply die_trace | apply die_tm].
Qed.

Lemma C2_request_without_body_witness :
  trace (post_task_new sample_env blank_request empty_world)
  = [Log "error" body_undefined_message;
     Respond (error_body (JStr body_undefined_message))] /\
  trace (post_task_new sample_env (upload_request None []) empty_world)
  = [Respond (error_body (JStr "Need at least 1 file or a zip file url."))].
Proof.
  destruct (C2_request_without_body sample_env blank_request empty_world
              eq_refl eq_refl eq_refl) as (Hraised & _ & _ & _ & Hform).
  split; [exact Hraised|].
  exact (proj1 (Hform (upload_request None []) eq_refl eq_refl eq_refl eq_refl)).
Defined.

(** ** Console output *)

Lemma getOutput_lookup k n i :
  Task.getOutput n k !! i = Task.output k !! (n + i)%nat.
Proof. unfold Task.getOutput. apply lookup_drop. Qed.

(** C6: [getOutput(fromLine)] is the output from index [fromLine] on: line
    [i] of the result is line [fromLine + i] of the output; [fromLine = 0]
    gives every line; a [fromLine] at or beyond the length gives the empty
    sequence.  The route answers an existing task with exactly that array,
    and with every line when no [line] parameter is given. *)
Theorem C6_getOutput_slices k fromLine :
  (forall i, Task.getOutput fromLine k !! i = Task.output k !! (fromLine + i)%nat) /\
  length (Task.getOutput fromLine k) = (length (Task.output k) - fromLine)%nat /\
  Task.getOutput 0 k = Task.output k /\
  ((length (Task.output k) <= fromLine)%nat -> Task.getOutput fromLine k = []) /\
  (forall env req w,
     authCheck env req = None ->
     TaskManager.find (params_uuid req) (tm w) = Some k ->
     (query_line req = Some fromLine ->
      get_task_output env req w
      = respond (JArr (JStr <$> Task.getOutput fromLine k)) w) /\
     (query_line req = None ->
      get_task_output env req w = respond (JArr (JStr <$> Task.output k)) w)).
Proof.
  split; [apply getOutput_lookup|].
  split; [apply length_drop|].
  split; [reflexivity|].
  split; [intros H; by apply drop_ge|].
  intros env req w Ha Hk.
  unfold get_task_output, auth_mw, getTaskFromUuid. rewrite Ha, Hk.
  unfold task_output_handler, with_req_task. simpl.
  split; intros Hl; by rewrite Hl.
Qed.

Lemma C6_getOutput_slices_witness :
  Task.getOutput 5 sample_task = [] /\
  get_task_output sample_env (lookup_request sample_uuid None (Some 1%nat)) sample_world
  = respond (JArr [JStr "line 1"; JStr "line 2"]) sample_world.
Proof.
  destruct (C6_getOutput_slices sample_task 5) as (_ & _ & _ & Hge & _).
  destruct (C6_getOutput_slices sample_task 1) as (_ & _ & _ & _ & Hroute).
  split.
  - apply Hge. simpl. lia.
  - destruct (Hroute sample_env (lookup_request sample_uuid None (Some 1%nat))
                     sample_world eq_refl eq_refl) as [Hline _].
    exact (Hline eq_refl).
Defined.

(** ** Asset download *)

(** C5: for a download request on an existing task, an asset name the task
    does not resolve is answered [{error: "Invalid asset"}], and a resolved
    path at which nothing exists yet is answered [{error: "Asset not ready"}].
    Each is the only event of the request: nothing is raised. *)
Theorem C5_download_errors env req w k :
  authCheck env req = None ->
  TaskManager.find (params_uuid req) (tm w) = Some k ->
  let asset := default "all.zip" (params_asset req) in
  (truthy (getAssetsArchivePath env k asset) = false ->
   get_task_download env req w = respond (error_body (JStr "Invalid asset")) w) /\
  (forall p, getAssetsArchivePath env k asset = Some p -> p ≠ EmptyString ->
             Fs.exists_sync (fs w) p = false ->
   get_task_download env req w = respond (error_body (JStr "Asset not ready")) w).
Proof.
  intros Ha Hk asset.
  unfold get_task_download, auth_mw, getTaskFromUuid. rewrite Ha, Hk.
  unfold task_download_handler, with_req_task. simpl. fold asset.
  split.
  - intros Hp. by rewrite Hp.
  - intros p Hp Hne Hex. rewrite Hp. simpl.
    destruct (String.eqb_spec p EmptyString); [done|]. simpl. by rewrite Hex.
Qed.

Lemma C5_download_errors_witness :
  get_task_download sample_env (lookup_request sample_uuid (Some "nope.tif") None)
                    sample_world
  = respond (error_body (JStr "Invalid asset")) sample_world /\
  get_task_download sample_env (lookup_request sample_uuid None None) sample_world
  = respond (error_body (JStr "Asset not ready")) sample_world.
Proof.
  split.
  - apply (C5_download_errors sample_env
             (lookup_request sample_uuid (Some "nope.tif") None)
             sample_world sample_task); reflexivity.
  - destruct (C5_download_errors sample_env (lookup_request sample_uuid None None)
                sample_world sample_task eq_refl eq_refl) as [_ Hready].
    apply (Hready (path_join (path_join "data" sample_uuid) "all.zip")).
    + reflexivity.
    + discriminate.
    + vm_compute. reflexivity.
Defined.

(** ** Graceful shutdown *)




(** ** Startup *)

(** C8 (amended): when a collaborator initialization or the construction of
    the Task Manager reports an error the process logs
    "Error during startup: <message>" and exits with code 1, and nothing
    exits before that.  When every step succeeds the process exits only in
    power-cycle mode, and then with code 0. *)
Theorem C8_startup_exits cfg boot w :
  let w' := startup cfg boot w in
  (forall m, reported_error boot = Some m ->
     exists evs,
       appended w w' (evs ++ [Log "error" ("Error during startup: " +:+ m); Exit 1])
       /\ forallb (fun e => negb (is_exit e)) evs = true) /\
  (first_error boot = None -> powercycle cfg = true ->
     exists evs,
       appended w w'
         (evs ++ [Log "info" "Power cycling is set, application will shut down...";
                  Exit 0])
       /\ forallb (fun e => negb (is_exit e)) evs = true) /\
  (first_error boot = None -> powercycle cfg = false ->
     exists evs, appended w w' evs
                 /\ forallb (fun e => negb (is_exit e)) evs = true).
Proof.
  destruct cfg as [prt lim pc tst].
  destruct boot as [o1 o2 o3 [m0 o4] o5].
  unfold reported_error, first_error, appended, startup, series, commands,
    init_step, startup_final.
  destruct o1, o2, o3, o4, o5, pc, tst; cbn;
    rewrite <- ?app_assoc; cbn;
    (split; [|split]); intros; simplify_eq;
    first [ split_last_two; split; reflexivity
          | eexists; split; reflexivity ].
Qed.

Lemma C8_startup_exits_witness :
  exists evs,
    appended empty_world (startup sample_config failing_boot empty_world)
      (evs ++ [Log "error" "Error during startup: S3 bucket is not reachable"; Exit 1])
    /\ forallb (fun e => negb (is_exit e)) evs = true.
Proof.
  destruct (C8_startup_exits sample_config failing_boot empty_world) as [Herr _].
  exact (Herr "S3 bucket is not reachable" eq_refl).
Defined.

(** C8, as stated, fails in power-cycle mode: every step succeeds and the
    process still exits. *)
Lemma C8_powercycle_counterexample :
  first_error sample_boot = None /\
  Exit 0 ∈ trace (startup powercycle_config sample_boot empty_world) /\
  ~ exits_only_on_startup_error powercycle_config sample_boot empty_world.
Proof.
  assert (Exit 0 ∈ trace (startup powercycle_config sample_boot empty_world)) as Hexit.
  { assert (trace (startup powercycle_config sample_boot empty_world)
            = [CallInit "odmInfo.initialize"; CallInit "auth.initialize";
               CallInit "S3.initialize"; CallInit "new TaskManager";
               CallInit "app.listen"; Log "info" "Server has started on port 3000";
               Log "info" "Power cycling is set, application will shut down...";
               Exit 0]) as -> by reflexivity.
    set_solver. }
  split; [reflexivity|]. split; [exact Hexit|].
  intros H. destruct (H 0 Hexit) as [m Hm]. discriminate Hm.
Qed.


(** ** Cancel, remove and restart *)

Lemma successHandler_shaped (err : option string) w :
  exists body,
    successHandler (ErrObj <$> err) w = respond body w /\ success_shaped body /\
    (forall m, err = Some m ->
               body = JObj [("success", JBool false); ("error", JStr m)]).
Proof.
  destruct err as [m|]; simpl; eexists; (split; [reflexivity|]); split.
  - right. by eexists.
  - by intros ? [= ->].
  - by left.
  - discriminate.
Qed.



Lemma restart_reports env req w :
  let uuid := default EmptyString (body_uuid req) in
  let opts := new_options (body_options req) in
  exists body,
    appended w (task_restart_handler env req w) [CallRestart uuid opts; Respond body] /\
    success_shaped body /\
    (TaskManager.find uuid (tm w) = None ->
     body = JObj [("success", JBool false);
                  ("error", JStr (uuid +:+ " not found"))] /\
     tm (task_restart_handler env req w) = tm w /\
     fs (task_restart_handler env req w) = fs w).
Proof.
  intros uuid opts. unfold task_restart_handler. fold uuid opts. simpl.
  unfold TaskManager.restart.
  destruct (TaskManager.find uuid (tm w)) as [k|] eqn:Hk; simpl.
  - destruct (Task.status k); simpl; eexists;
      (split; [unfold appended; simpl; by rewrite <- app_assoc|]);
      (split; [|discriminate]); first [by left | right; by eexists].
  - eexists. split; [unfold appended; simpl; by rewrite <- app_assoc|].
    split; [right; by eexists | done].
Qed.




(** ** Restart with options *)

(** C4: when a POST /task/restart request supplies options, every call of
    the Task Manager's restart comes after the call of
    [odmInfo.filterOptions] on those options and carries the validated list.
    When the validator rejects them the request is answered with the
    validator's error, restart is not called, and the Task Manager and the
    file system are as before. *)
Theorem C4_restart_options_validated env req w :
  options_truthy (body_options req) = true ->
  let w' := post_task_restart env req w in
  exists evs,
    appended w w' evs /\
    (forall i uuid opts, evs !! i = Some (CallRestart uuid opts) ->
       exists j validated,
         (j < i)%nat /\
         evs !! j = Some (CallFilterOptions (body_options req)) /\
         filterOptions env (body_options req) = inr validated /\
         opts = Some validated) /\
    (forall msg, filterOptions env (body_options req) = inl msg ->
       tm w' = tm w /\ fs w' = fs w /\
       forallb (fun e => negb (is_restart_call e)) evs = true /\
       (authCheck env req = None -> truthy (body_uuid req) = true ->
        evs = [CallFilterOptions (body_options req);
               Respond (error_body (JStr msg))])).
Proof.
  intros Ht w'. subst w'.
  unfold post_task_restart, auth_mw, uuidCheck.
  destruct (authCheck env req) as [denied|] eqn:Ha.
  { exists [Respond denied]. split; [done|]. split.
    - intros [|[|i]] ???; simplify_eq.
    - intros msg _. repeat split; try done. }
  destruct (truthy (body_uuid req)) eqn:Hu; simpl.
  2:{ eexists. split; [reflexivity|]. split.
    - intros [|[|i]] ???; simplify_eq.
    - intros msg _. repeat split; try done. }
  unfold restart_options_mw. rewrite Ht.
  destruct (filterOptions env (body_options req)) as [msg|validated] eqn:Hf.
  - exists [CallFilterOptions (body_options req); Respond (error_body (JStr msg))].
    split; [unfold appended; simpl; by rewrite <- app_assoc|]. split.
    + intros [|[|[|i]]] ???; simplify_eq.
    + intros ? [= <-]. repeat split; done.
  - destruct (restart_reports env (with_options (Parsed validated) req)
                (emit (CallFilterOptions (body_options req)) w))
      as (body & Happ & _).
    eexists. split.
    { unfold appended in *. rewrite Happ. simpl. rewrite <- app_assoc.
      reflexivity. }
    split; [|discriminate].
    intros [|[|[|i]]] uuid opts H; simpl in H; simplify_eq.
    exists 0%nat, validated. split; [lia|]. simpl. repeat split; done.
Qed.

Lemma C4_restart_options_validated_witness :
  exists evs,
    appended sample_world
      (post_task_restart sample_env (command_request (Some sample_uuid) (Some "bad"))
                         sample_world) evs /\
    tm (post_task_restart sample_env (command_request (Some sample_uuid) (Some "bad"))
                          sample_world) = tm sample_world /\
    evs = [CallFilterOptions (Raw (Some "bad"));
           Respond (error_body (JStr "Invalid options"))].
Proof.
  destruct (C4_restart_options_validated sample_env
              (command_request (Some sample_uuid) (Some "bad")) sample_world eq_refl)
    as (evs & Happ & _ & Hrej).
  destruct (Hrej "Invalid options" eq_refl) as (Htm & _ & _ & Hevs).
  exists evs. split; [exact Happ|]. split; [exact Htm|].
  exact (Hevs eq_refl eq_refl).
Defined.

(** ** The pipeline of POST /task/new *)

Lemma answers_app a b : answers (a ++ b) = answers a ++ answers b.
Proof. unfold answers. apply omap_app. Qed.

Lemma raised_app a b : raised (a ++ b) = (raised a || raised b)%bool.
Proof. unfold raised. apply existsb_app. Qed.

Lemma limit_message_truthy cfg n : err_truthy (ErrStr (limit_message cfg n)) = true.
Proof. unfold limit_message. simpl. by destruct (show_nat n). Qed.

Lemma acted_on_fmap (err : option string) : acted_on (ErrObj <$> err).
Proof. by destruct err. Qed.

Lemma eachSeries_safe {S A : Type} (I : S -> Prop) (Post : World -> Prop)
    (l1 l2 : list A) (iteratee : A -> Step S) final :
  Forall (fun x => preserves I Post (iteratee x)) l1 ->
  (forall e s, err_truthy e = true -> I s -> Post (final (Some e) s)) ->
  (forall s, I s -> Post (eachSeries l2 iteratee final s)) ->
  forall s, I s -> Post (eachSeries (l1 ++ l2) iteratee final s).
Proof.
  intros Hsteps Herr Hrest. induction Hsteps as [|x l1 Hx _ IH]; simpl.
  - exact Hrest.
  - intros s Hs. apply Hx; [exact Hs|].
    intros [e|] s' Hok Hs'; simpl in Hok; [rewrite Hok|]; auto.
Qed.

Lemma eachSeries_safe_all {S A : Type} (I : S -> Prop) (Post : World -> Prop)
    (l : list A) (iteratee : A -> Step S) cb :
  (forall x, preserves I Post (iteratee x)) ->
  (forall err s, acted_on err -> I s -> Post (cb err s)) ->
  forall s, I s -> Post (eachSeries l iteratee cb s).
Proof.
  intros Hsteps Hcb s Hs. rewrite <- (app_nil_r l).
  apply (eachSeries_safe I Post).
  - apply Forall_forall. auto.
  - intros e s' He. by apply (Hcb (Some e)).
  - intros s' Hs'. simpl. by apply (Hcb None).
  - exact Hs.
Qed.

Lemma create_uuid data i nm opts hook skip now f k :
  Task.create data i nm opts hook skip now f = inr k -> Task.uuid k = i.
Proof.
  unfold Task.create. destruct (f !! _) as [[|x l]|]; [done| |done].
  by intros [= <-].
Qed.

Lemma store_all_tm req fl w : tm (foldl (store_upload req) w fl) = tm w.
Proof.
  revert w. induction fl as [|x fl IH]; intros w; simpl; [done|].
  rewrite IH. unfold store_upload, destination.
  by destruct (Fs.exists_sync _ _).
Qed.

Lemma store_all_trace req fl w : trace (foldl (store_upload req) w fl) = trace w.
Proof.
  revert w. induction fl as [|x fl IH]; intros w; simpl; [done|].
  rewrite IH. unfold store_upload, destination.
  by destruct (Fs.exists_sync _ _).
Qed.

Section Pipeline.

Variable env : Env.
Variable i : string.
Variable w0 : World.

Let I := pending i w0.
Let Post := settled env i w0.

Lemma pending_emit req w e :
  I (req, w) -> answers [e] = [] -> is_uncaught e = false -> I (req, emit e w).
Proof.
  intros (Hid & Htm & evs & Happ & Ha & Hr) He Hu.
  split; [done|]. split; [done|]. exists (evs ++ [e]).
  split; [by apply appended_emit|].
  rewrite answers_app, raised_app, Ha, Hr, He. simpl. by rewrite Hu.
Qed.

Lemma pending_fs req w f : I (req, w) -> I (req, set_fs f w).
Proof. intros (Hid & Htm & Hevs). by split. Qed.

Lemma pending_options req w o : I (req, w) -> I (with_options o req, w).
Proof. intros (Hid & Htm & Hevs). by split. Qed.

(** An exception escapes before anything was answered. *)
Lemma settled_raise req w m : I (req, w) -> Post (emit (Uncaught m) w).
Proof.
  intros (Hid & Htm & evs & Happ & Ha & Hr).
  exists (evs ++ [Uncaught m]). split; [by apply appended_emit|].
  right. left. split; [done|]. rewrite raised_app. simpl. apply orb_true_r.
Qed.

(** An exception escapes after the run was settled. *)
Lemma settled_then_raise w m : Post w -> Post (emit (Uncaught m) w).
Proof.
  intros (evs & Happ & Hout).
  exists (evs ++ [Uncaught m]). split; [by apply appended_emit|].
  destruct Hout as [(k & Hk & Htm & Ha) | [(Htm & Hr) | (Htm & Hr & Ha & Hd)]].
  - left. exists k. rewrite answers_app, Ha. done.
  - right. left. split; [done|]. by rewrite raised_app, Hr.
  - right. left. split; [done|]. rewrite raised_app. simpl. apply orb_true_r.
Qed.

(** The failure path: [die] settles a pending run. *)
Lemma settled_die req w x : I (req, w) -> Post (die (srcPath req) x w).
Proof.
  intros (Hid & Htm & evs & Happ & Ha & Hr). simpl in Hid, Htm, Happ.
  exists (evs ++ [Respond (error_body (of_opt x))]). split.
  { unfold appended in *. by rewrite die_trace, Happ, app_assoc. }
  right. right. rewrite die_tm. split; [done|].
  rewrite raised_app, answers_app, Ha, Hr. split; [done|].
  split; [by eexists|]. unfold srcPath. rewrite <- Hid. apply die_cleans.
Qed.

Local Ltac run_step := intros cb [req w] Hs Hcb.

Local Ltac keep :=
  repeat first
    [ assumption
    | apply pending_fs
    | apply pending_options
    | apply pending_emit; [|reflexivity|reflexivity] ].

Local Ltac call_back Hcb :=
  apply Hcb;
  [ first [ exact Logic.I | reflexivity | apply acted_on_fmap
          | apply limit_message_truthy ]
  | keep ].

Lemma safe_filter_options : preserves I Post (step_filter_options env).
Proof.
  run_step. unfold step_filter_options.
  destruct (filterOptions env _); call_back Hcb.
Qed.

Lemma safe_check_dest : preserves I Post (step_check_dest env).
Proof.
  run_step. unfold step_check_dest.
  destruct (has_files req); [|call_back Hcb].
  destruct (Fs.stat _ _) as [d|code].
  - by eapply settled_raise.
  - destruct (String.eqb code "ENOENT"); call_back Hcb.
Qed.

Lemma safe_zipurl : preserves I Post (step_zipurl env).
Proof.
  run_step. unfold step_zipurl, destination, download.
  destruct (truthy (body_zipurl req)); [|call_back Hcb].
  destruct (Fs.exists_sync _ _), (head_error env _); call_back Hcb.
Qed.

Lemma safe_mkdir p : preserves I Post (step_mkdir p).
Proof.
  run_step. unfold step_mkdir.
  destruct (Fs.mkdir _ _) as [f err]. call_back Hcb.
Qed.

Lemma safe_move_uploads : preserves I Post (step_move_uploads env).
Proof.
  run_step. unfold step_move_uploads.
  destruct (Fs.mv_dir _ _ _) as [f err]. call_back Hcb.
Qed.

Lemma safe_extract_entry entry : preserves I Post (extract_entry env entry).
Proof.
  run_step. unfold extract_entry.
  destruct (is_zip entry); [|call_back Hcb].
  destruct (zip env _) as [msg|stack|names].
  - call_back Hcb.
  - apply settled_then_raise. call_back Hcb.
  - destruct (over_limit _ _); call_back Hcb.
Qed.

Lemma safe_extract_zips : preserves I Post (step_extract_zips env).
Proof.
  run_step. unfold step_extract_zips.
  destruct (Fs.readdir _ _) as [msg|entries]; [call_back Hcb|].
  by apply (eachSeries_safe_all I Post); [apply safe_extract_entry|exact Hcb|].
Qed.

Lemma safe_sort_entry entry : preserves I Post (sort_entry env entry).
Proof.
  run_step. unfold sort_entry.
  destruct (is_txt entry); [|destruct (is_zip entry)]; call_back Hcb.
Qed.

Lemma safe_move_gcp : preserves I Post (step_move_gcp env).
Proof.
  run_step. unfold step_move_gcp.
  destruct (Fs.readdir _ _) as [msg|entries]; [call_back Hcb|].
  by apply (eachSeries_safe_all I Post); [apply safe_sort_entry|exact Hcb|].
Qed.

Lemma final_settles e s :
  err_truthy e = true -> I s -> Post (task_new_final (Some e) s).
Proof.
  destruct s as [req w]. intros He Hs. simpl. rewrite He.
  by apply settled_die.
Qed.

Lemma create_task_last s :
  I s -> Post (eachSeries [step_create_task env] (fun step => step) task_new_final s).
Proof.
  destruct s as [req w]. intros Hs. simpl.
  destruct (Task.create _ _ _ _ _ _ _ _) as [msg|k] eqn:Hk; simpl.
  - by apply settled_die.
  - destruct Hs as (Hid & Htm & evs & Happ & Ha & Hr). simpl in Hid, Htm, Happ.
    exists (evs ++ [CallAddNew (Task.uuid k); Respond (JObj [("uuid", JStr i)])]).
    split.
    { unfold appended in *. simpl. by rewrite Happ, Hid, <- !app_assoc. }
    left. exists k. split; [rewrite <- Hid; eapply create_uuid, Hk|].
    split; [simpl; by rewrite Htm|]. by rewrite answers_app, Ha.
Qed.

Lemma series_settles s : I s -> Post (series (task_new_steps env) task_new_final s).
Proof.
  unfold series, task_new_steps.
  apply (eachSeries_safe I Post
           [step_filter_options env; step_check_dest env; step_zipurl env;
            step_mkdir (destPath env); step_mkdir (destGpcPath env);
            step_move_uploads env; step_extract_zips env; step_move_gcp env]
           [step_create_task env] (fun step => step) task_new_final).
  - repeat (apply Forall_cons_2;
            [first [ apply safe_filter_options | apply safe_check_dest
                   | apply safe_zipurl | apply safe_mkdir
                   | apply safe_move_uploads | apply safe_extract_zips
                   | apply safe_move_gcp ]|]).
    apply Forall_nil_2.
  - apply final_settles.
  - apply create_task_last.
Qed.

End Pipeline.

Lemma pending_start req w : pending (id req) w (req, w).
Proof.
  split; [done|]. split; [done|]. exists []. split; [apply appended_refl|done].
Qed.

(** However the handler ends for a multipart request, it ends in one of the
    three outcomes for [req.id]: the Task Manager gains at most one task,
    which carries that id and is answered with it; a run that fails without
    raising is answered once, with an error body, and leaves no upload
    directory. *)
Lemma handler_settles env req w :
  is_Some (files req) -> settled env (id req) w (task_new_handler env req w).
Proof.
  intros [fl Hf]. unfold task_new_handler. rewrite Hf.
  destruct (_ && _)%bool; [apply (settled_die env _ w req), pending_start|].
  destruct (over_limit _ _); [apply (settled_die env _ w req), pending_start|].
  apply series_settles, pending_start.
Qed.

Lemma upload_settles env req w :
  is_Some (files req) ->
  settled env (id req) w (upload_array req (task_new_handler env) w).
Proof.
  intros Hf. unfold upload_array.
  destruct (handler_settles env req
              (foldl (store_upload req) w (default [] (files req))) Hf)
    as (evs & Happ & Hout).
  exists evs. unfold appended in *.
  by rewrite store_all_trace, store_all_tm in *.
Qed.

(** A request that is not multipart goes from the upload middleware straight
    to the error middleware, whatever its id. *)
Lemma upload_without_body env req w :
  files req = None ->
  upload_array req (task_new_handler env) w
  = express_error body_undefined_message w.
Proof.
  intros Hf. unfold upload_array. rewrite Hf. simpl.
  by apply handler_without_body.
Qed.

(** Without a (non-empty) set-uuid header the id is the generated one. *)
Lemma generated_id_without_header env req w :
  authCheck env req = None -> truthy (set_uuid req) = false ->
  is_Some (files req) ->
  settled env (uuidv4 env) w (post_task_new env req w).
Proof.
  intros Ha Hh Hf. rewrite (reaches_handler env req w Ha Hh).
  by apply (upload_settles env (with_id (uuidv4 env) req)).
Qed.

(** C1 (amended): for an authorised POST /task/new request carrying a
    non-empty set-uuid header, if the value is a well-formed UUID that no
    task has, the request runs with that value as its id: a task it creates
    has that id and is answered with it (a request that is not multipart
    creates none: it ends in the error middleware).  If the value is
    malformed or already in use the request is answered
    [{error: "Invalid set-uuid: <value>"}] and nothing else happens: no id is
    generated and no task is created. *)
Theorem C1_set_uuid_used_or_rejected env req w u :
  authCheck env req = None -> set_uuid req = Some u -> u ≠ EmptyString ->
  let w' := post_task_new env req w in
  (valid_uuid u = true -> TaskManager.find u (tm w) = None ->
   (is_Some (files req) -> settled env u w w') /\
   (files req = None -> w' = express_error body_undefined_message w)) /\
  (valid_uuid u = false \/ is_Some (TaskManager.find u (tm w)) ->
   w' = respond (error_body (JStr ("Invalid set-uuid: " +:+ u))) w).
Proof.
  intros Ha Hu Hne w'. subst w'.
  unfold post_task_new, auth_mw, set_uuid_mw. rewrite Ha, Hu. simpl.
  destruct (String.eqb_spec u EmptyString); [done|]. simpl. split.
  - intros Hv Hfree. rewrite Hv, Hfree. simpl. split.
    + intros Hf. by apply (upload_settles env (with_id u req)).
    + intros Hf. by apply (upload_without_body env (with_id u req)).
  - intros [Hv | Htaken].
    + by rewrite Hv.
    + rewrite (bool_decide_eq_true_2 _ Htaken). simpl.
      by rewrite andb_false_r.
Qed.

Lemma C1_set_uuid_used_or_rejected_witness :
  settled sample_env sample_uuid empty_world
    (post_task_new sample_env (upload_request (Some sample_uuid) ["a.jpg"])
                   empty_world) /\
  Task.uuid <$> TaskManager.tasks
    (tm (post_task_new sample_env (upload_request (Some sample_uuid) ["a.jpg"])
                       empty_world)) = [sample_uuid] /\
  post_task_new sample_env (upload_request (Some sample_uuid) ["a.jpg"]) sample_world
  = respond (error_body (JStr ("Invalid set-uuid: " +:+ sample_uuid))) sample_world.
Proof.
  split; [|split].
  - destruct (C1_set_uuid_used_or_rejected sample_env
                (upload_request (Some sample_uuid) ["a.jpg"]) empty_world
                sample_uuid eq_refl eq_refl) as [Hused _]; [discriminate|].
    destruct (Hused eq_refl eq_refl) as [Hmultipart _].
    apply Hmultipart. by eexists.
  - vm_compute. reflexivity.
  - destruct (C1_set_uuid_used_or_rejected sample_env
                (upload_request (Some sample_uuid) ["a.jpg"]) sample_world
                sample_uuid eq_refl eq_refl) as [_ Hrejected]; [discriminate|].
    apply Hrejected. right. by eexists.
Defined.

(** C1, as stated, fails: a request with a malformed set-uuid is not served
    with a generated id; it is answered with an error and creates nothing,
    while the same request without the header creates a task. *)
Lemma C1_malformed_header_counterexample :
  trace (post_task_new sample_env (upload_request (Some "not-a-uuid") ["a.jpg"])
                       empty_world)
  = [Respond (error_body (JStr "Invalid set-uuid: not-a-uuid"))] /\
  TaskManager.tasks
    (tm (post_task_new sample_env (upload_request (Some "not-a-uuid") ["a.jpg"])
                       empty_world)) = [] /\
  Task.uuid <$> TaskManager.tasks
    (tm (post_task_new sample_env (upload_request None ["a.jpg"]) empty_world))
  = [uuidv4 sample_env] /\
  ~ served_with_generated_id sample_env
      (upload_request (Some "not-a-uuid") ["a.jpg"]) empty_world.
Proof.
  split; [reflexivity|]. split; [reflexivity|]. split; [vm_compute; reflexivity|].
  unfold served_with_generated_id. intros H.
  apply (f_equal trace) in H. vm_compute in H. discriminate H.
Qed.

(** ** Failure paths of POST /task/new *)

(** Every failure that reaches [die] is answered once and loses its upload
    directory. *)
Lemma die_answers_and_cleans p e w :
  appended w (die p e w) [Respond (error_body (of_opt e))] /\
  tm (die p e w) = tm w /\
  Fs.is_dir (fs (die p e w)) p = false.
Proof. split; [apply die_trace|]. split; [apply die_tm | apply die_cleans]. Qed.

(** More uploaded files than the limit: rejected with the message of line
    189. *)
Lemma files_over_limit_rejected env req w fl :
  files req = Some fl -> over_limit (config env) (length fl) = true ->
  task_new_handler env req w
  = die (srcPath req) (Some (limit_message (config env) (length fl))) w.
Proof.
  intros Hf Hover. unfold task_new_handler, has_files. rewrite Hf.
  destruct fl as [|x fl].
  - unfold over_limit in Hover. simpl in Hover.
    destruct (maxImages (config env)) as [n|]; [|done].
    by rewrite andb_false_r in Hover.
  - simpl negb at 1. cbv iota. by rewrite Hover.
Qed.

(** At or below the limit the handler does not reject on this ground: the
    pipeline runs. *)
Lemma files_within_limit_accepted env req w fl :
  files req = Some fl -> fl ≠ [] -> over_limit (config env) (length fl) = false ->
  task_new_handler env req w = series (task_new_steps env) task_new_final (req, w).
Proof.
  intros Hf Hne Hok. unfold task_new_handler, has_files. rewrite Hf.
  destruct fl as [|x fl]; [done|]. simpl negb at 1. cbv iota. by rewrite Hok.
Qed.

(** The directory check of lines 210-213 on an existing directory: the
    callback is never invoked, so neither [die] nor any answer follows. *)
Lemma check_dest_raises env cb req w :
  has_files req = true -> Fs.is_dir (fs w) (destPath env req) = true ->
  step_check_dest env cb (req, w)
  = emit (Uncaught "TypeError: Cannot read property 'code' of null") w.
Proof.
  intros Hf Hd. unfold step_check_dest, Fs.stat. by rewrite Hf, Hd.
Qed.

(** Hence a request with uploaded files whose data directory is already
    there ends right after option validation: nothing is answered and the
    file system, the upload directory included, stays as it was. *)
Lemma handler_raises_on_existing_destination env req w fl opts :
  files req = Some fl -> fl ≠ [] -> over_limit (config env) (length fl) = false ->
  filterOptions env (body_options req) = inr opts ->
  Fs.is_dir (fs w) (destPath env req) = true ->
  task_new_handler env req w
  = emit (Uncaught "TypeError: Cannot read property 'code' of null")
         (emit (CallFilterOptions (body_options req)) w).
Proof.
  intros Hf Hne Hok Hopts Hd.
  rewrite (files_within_limit_accepted env req w fl Hf Hne Hok).
  unfold series, task_new_steps. simpl. rewrite Hopts.
  unfold has_files, Fs.stat. simpl. rewrite Hf.
  destruct fl as [|x fl]; [done|].
  change (destPath env (with_options (Parsed opts) req)) with (destPath env req).
  by rewrite Hd.
Qed.

(** An archive with more entries than the limit: the message of line 270 is
    handed on as a bare string, and the final callback of line 312 reads its
    [message] property, which is [undefined]. *)
Lemma zip_limit_message_is_lost env entry cb req w names :
  is_zip entry = true ->
  zip env (path_join (destImagesPath env req) entry) = ZipExtracted names ->
  over_limit (config env) (length names) = true ->
  (exists w1,
     extract_entry env entry cb (req, w)
     = cb (Some (ErrStr (limit_message (config env) (length names)))) (req, w1)) /\
  (forall w1,
     task_new_final (Some (ErrStr (limit_message (config env) (length names))))
                    (req, w1)
     = die (srcPath req) None w1).
Proof.
  intros Hz Hzip Hover. split.
  - unfold extract_entry. rewrite Hz, Hzip, Hover. by eexists.
  - intros w1. unfold task_new_final, limit_message. simpl.
    by destruct (show_nat (length names)).
Qed.

(** C9: a request whose archive exceeds the image limit fails after its
    uploads were moved, leaving [data/<uuid>] behind; the next request with
    the same set-uuid and one uploaded file then finds that directory, the
    directory check raises inside its callback, and the request ends without
    any answer and with its upload directory [tmp/<uuid>] still in place. *)
Theorem C9_failure_without_answer_or_cleanup :
  let first := post_task_new sample_env (upload_request (Some sample_uuid) ["x.zip"])
                             empty_world in
  let second := post_task_new sample_env (upload_request (Some sample_uuid) ["y.jpg"])
                              first in
  TaskManager.tasks (tm first) = [] /\
  Fs.is_dir (fs first) (path_join "data" sample_uuid) = true /\
  appended first second
    [CallFilterOptions (Raw None);
     Uncaught "TypeError: Cannot read property 'code' of null"] /\
  Fs.is_dir (fs second) (path_join "tmp" sample_uuid) = true /\
  TaskManager.tasks (tm second) = [].
Proof. vm_compute. repeat split; reflexivity. Qed.

(** C10: with a limit of 2 images, one uploaded archive of 3 entries.  No
    task is created, but the body handed to [res.json] has an [undefined]
    error, which is sent as [{}]; three uploaded files, by contrast, are
    answered with the message. *)
Theorem C10_archive_over_limit_answer :
  let w' := post_task_new sample_env (upload_request None ["x.zip"]) empty_world in
  trace w' = [CallFilterOptions (Raw None); Log "info" "Extracted 3 entries";
              Respond (JObj [("error", JUndefined)])] /\
  Js.get "error" (wire (JObj [("error", JUndefined)])) = None /\
  TaskManager.tasks (tm w') = [] /\
  trace (post_task_new sample_env (upload_request None ["a.jpg"; "b.jpg"; "c.jpg"])
                       empty_world)
  = [Respond (error_body
       (JStr "3 images uploaded, but this node can only process up to 2."))].
Proof. vm_compute. repeat split; reflexivity. Qed.

(** * Further properties of index.js *)

(** ** The set-uuid pattern (line 161) *)

Lemma in_class_hex_or_dash k c :
  in_class k c = true -> (is_hex c || Ascii.eqb c "-")%bool = true.
Proof.
  destruct k; destruct c as [[] [] [] [] [] [] [] []]; vm_compute; congruence.
Qed.

Lemma in_class_dash c : in_class Dash c = true -> c = "-"%char.
Proof. simpl. apply Ascii.eqb_eq. Qed.

Lemma in_class_lower k c : in_class k (lower c) = in_class k c.
Proof. destruct k; destruct c as [[] [] [] [] [] [] [] []]; reflexivity. Qed.

Lemma matches_get p s :
  matches p s = true ->
  String.length s = length p /\
  forall i c, String.get i s = Some c ->
              exists k, p !! i = Some k /\ in_class k c = true.
Proof.
  revert s. induction p as [|k p IH]; intros [|c s]; simpl; try discriminate.
  - intros _. split; [done|]. intros i c'. discriminate.
  - intros [Hc Hs]%andb_true_iff. destruct (IH s Hs) as [Hlen Hget].
    split; [by rewrite Hlen|].
    intros [|i] c'; simpl.
    + intros [= <-]. by exists k.
    + apply Hget.
Qed.

Lemma get_in_range s i :
  (i < String.length s)%nat -> exists c, String.get i s = Some c.
Proof.
  revert i. induction s as [|c s IH]; intros i; simpl; [lia|].
  destruct i as [|i]; [by eexists|]. intros H. apply IH. lia.
Qed.

(** X1: a set-uuid value that passes the pattern has exactly 36 characters,
    dashes at positions 8, 13, 18 and 23, and nothing but hexadecimal digits
    and dashes; in particular it holds no path separator and no dot, so
    [tmp/<id>] and [data/<id>] name direct children of those directories. *)
Theorem X1_accepted_uuid_shape s :
  valid_uuid s = true ->
  String.length s = 36%nat /\
  String.get 8 s = Some "-"%char /\ String.get 13 s = Some "-"%char /\
  String.get 18 s = Some "-"%char /\ String.get 23 s = Some "-"%char /\
  forall i c, String.get i s = Some c ->
    (is_hex c || Ascii.eqb c "-")%bool = true /\
    c <> "/"%char /\ c <> "\"%char /\ c <> "."%char.
Proof.
  intros H. destruct (matches_get _ _ H) as [Hlen Hget].
  split; [exact Hlen|].
  assert (forall i, uuid_pattern !! i = Some Dash ->
                    String.get i s = Some "-"%char) as Hd.
  { intros i Hi.
    destruct (get_in_range s i) as [c Hc].
    { rewrite Hlen. apply lookup_lt_Some in Hi. exact Hi. }
    destruct (Hget i c Hc) as (k & Hk & Hin).
    rewrite Hi in Hk. injection Hk as <-. by rewrite Hc, (in_class_dash c Hin). }
  do 4 (split; [by apply Hd|]).
  intros i c Hc. destruct (Hget i c Hc) as (k & _ & Hin).
  pose proof (in_class_hex_or_dash k c Hin) as Hx.
  split; [exact Hx|].
  repeat split; intros ->; discriminate Hx.
Qed.

Lemma X1_accepted_uuid_shape_witness :
  String.length sample_uuid = 36%nat /\
  String.get 8 sample_uuid = Some "-"%char /\
  String.get 13 sample_uuid = Some "-"%char /\
  String.get 18 sample_uuid = Some "-"%char /\
  String.get 23 sample_uuid = Some "-"%char /\
  forall i c, String.get i sample_uuid = Some c ->
    (is_hex c || Ascii.eqb c "-")%bool = true /\
    c <> "/"%char /\ c <> "\"%char /\ c <> "."%char.
Proof. apply (X1_accepted_uuid_shape sample_uuid). reflexivity. Defined.

(** X2: the pattern is case-insensitive: a value and its lower-case form are
    accepted or refused alike. *)
Theorem X2_uuid_pattern_ignores_case s : valid_uuid (lowercase s) = valid_uuid s.
Proof.
  unfold valid_uuid. generalize uuid_pattern as p.
  intros p. revert s. induction p as [|k p IH]; intros [|c s]; simpl; try done.
  by rewrite in_class_lower, IH.
Qed.

(** ** The archive and GCP tests (lines 247, 288, 290) *)

Lemma length_lowercase s : String.length (lowercase s) = String.length s.
Proof. induction s as [|c s IH]; simpl; [done|by rewrite IH]. Qed.

Lemma length_append s x :
  String.length (s +:+ x) = (String.length s + String.length x)%nat.
Proof. induction s as [|c s IH]; simpl; [done|by rewrite IH]. Qed.

Lemma substring_all x : String.substring 0 (String.length x) x = x.
Proof. induction x as [|c x IH]; simpl; [done|by rewrite IH]. Qed.

Lemma substring_suffix s x :
  String.substring (String.length s) (String.length x) (s +:+ x) = x.
Proof. induction s as [|c s IH]; simpl; [apply substring_all|exact IH]. Qed.

Lemma substring_split e k :
  (k <= String.length e)%nat ->
  e = String.substring 0 k e +:+ String.substring k (String.length e - k) e.
Proof.
  revert k. induction e as [|c e IH]; intros k Hk; simpl in *.
  - by destruct k.
  - destruct k as [|k]; simpl.
    + by rewrite substring_all.
    + change (String c e = String c (String.substring 0 k e +:+
                              String.substring k (String.length e - k) e)).
      f_equal. apply IH. lia.
Qed.

Lemma ends_with_ci_spec suffix e :
  ends_with_ci suffix e = true <->
  exists s x, e = s +:+ x /\ lowercase x = suffix.
Proof.
  split.
  - unfold ends_with_ci. intros [Hle Heq]%andb_true_iff.
    apply Nat.leb_le in Hle. apply String.eqb_eq in Heq.
    exists (String.substring 0 (String.length e - String.length suffix) e),
           (String.substring (String.length e - String.length suffix)
                             (String.length suffix) e).
    split; [|exact Heq].
    rewrite (substring_split e (String.length e - String.length suffix)) at 1 by lia.
    do 2 f_equal. lia.
  - intros (s & x & -> & <-). unfold ends_with_ci.
    rewrite length_lowercase, length_append.
    apply andb_true_iff. split; [apply Nat.leb_le; lia|].
    replace (String.length s + String.length x - String.length x)%nat
      with (String.length s) by lia.
    rewrite substring_suffix. apply String.eqb_refl.
Qed.

(** X3: a directory entry is taken for an archive exactly when it ends in
    ".zip" in any mix of cases, and for a GCP file exactly when it ends in
    ".txt" in any mix of cases; no entry is both, so the order of the two
    tests of lines 288-290 does not matter. *)
Theorem X3_entry_tests e :
  (is_zip e = true <-> exists s x, e = s +:+ x /\ lowercase x = ".zip") /\
  (is_txt e = true <-> exists s x, e = s +:+ x /\ lowercase x = ".txt") /\
  (is_zip e = true -> is_txt e = false).
Proof.
  split; [apply ends_with_ci_spec|]. split; [apply ends_with_ci_spec|].
  unfold is_zip, is_txt, ends_with_ci. simpl String.length.
  intros [Hle Heq]%andb_true_iff. rewrite Hle. simpl.
  apply String.eqb_eq in Heq. by rewrite Heq.
Qed.

(** ** Storing the uploads (lines 64-82) *)

Lemma add_entry_elem n x l : n ∈ Fs.add_entry x l <-> n = x \/ n ∈ l.
Proof.
  unfold Fs.add_entry. case_bool_decide as Hx.
  - split; [by right|]. by intros [-> | ?].
  - rewrite elem_of_app, list_elem_of_singleton. tauto.
Qed.

Lemma add_entry_NoDup x l : NoDup l -> NoDup (Fs.add_entry x l).
Proof.
  intros Hl. unfold Fs.add_entry. case_bool_decide as Hx; [done|].
  apply NoDup_app. split; [done|]. split; [|apply NoDup_singleton].
  by intros y Hy ->%list_elem_of_singleton.
Qed.

Lemma exists_sync_dir (f : gmap string (list string)) p l :
  f !! p = Some l -> Fs.exists_sync f p = true.
Proof.
  intros H. unfold Fs.exists_sync, Fs.is_dir.
  rewrite bool_decide_eq_true_2; [done|by eexists].
Qed.

Lemma foldl_add_elem fl cur n :
  n ∈ foldl (fun acc x => Fs.add_entry x acc) cur fl <-> n ∈ cur \/ n ∈ fl.
Proof.
  revert cur. induction fl as [|x fl IH]; intros cur; simpl.
  - rewrite elem_of_nil. tauto.
  - rewrite IH, add_entry_elem, elem_of_cons. tauto.
Qed.

Lemma foldl_add_NoDup fl cur :
  NoDup cur -> NoDup (foldl (fun acc x => Fs.add_entry x acc) cur fl).
Proof.
  revert cur. induction fl as [|x fl IH]; intros cur H; simpl; [done|].
  by apply IH, add_entry_NoDup.
Qed.

(** Storing into an upload directory that is already there. *)
Lemma store_into_existing req w cur fl :
  fs w !! srcPath req = Some cur ->
  foldl (store_upload req) w fl
  = set_fs (<[srcPath req := foldl (fun acc n => Fs.add_entry n acc) cur fl]> (fs w)) w.
Proof.
  revert w cur. induction fl as [|x fl IH]; intros w cur Hcur; simpl.
  - rewrite insert_id by done. by destruct w.
  - assert (store_upload req w x
            = set_fs (<[srcPath req := Fs.add_entry x cur]> (fs w)) w) as ->.
    { unfold store_upload, destination. fold (srcPath req).
      rewrite (exists_sync_dir _ _ _ Hcur). unfold Fs.write_file. by rewrite Hcur. }
    rewrite (IH _ (Fs.add_entry x cur)) by (simpl; apply lookup_insert_eq).
    simpl. unfold set_fs. simpl. f_equal. apply insert_insert_eq.
Qed.

(** X4: when a request uploads at least one file and nothing exists yet at
    [tmp/<id>], the upload middleware creates that directory and hands on a
    file system in which it holds exactly the uploaded names, each once (a
    name uploaded twice is stored once); every other path is as before. *)
Theorem X4_upload_fills_fresh_directory req next w fl :
  files req = Some fl -> fl <> [] ->
  Fs.exists_sync (fs w) (srcPath req) = false ->
  exists entries,
    upload_array req next w
    = next req (set_fs (<[srcPath req := entries]> (fs w)) w) /\
    NoDup entries /\ forall n, n ∈ entries <-> n ∈ fl.
Proof.
  intros Hf Hne Hfresh. unfold upload_array. rewrite Hf. simpl.
  destruct fl as [|x fl]; [done|]. simpl.
  assert (store_upload req w x = set_fs (<[srcPath req := [x]]> (fs w)) w) as ->.
  { unfold store_upload, destination. fold (srcPath req). rewrite Hfresh.
    unfold Fs.mkdir. unfold Fs.exists_sync in Hfresh.
    apply orb_false_iff in Hfresh as [-> _]. simpl.
    unfold Fs.write_file. rewrite lookup_insert_eq.
    unfold set_fs. simpl. f_equal. apply insert_insert_eq. }
  rewrite (store_into_existing req _ [x]) by (simpl; apply lookup_insert_eq).
  eexists. split.
  { unfold set_fs. simpl. rewrite insert_insert_eq. reflexivity. }
  split.
  - apply foldl_add_NoDup, NoDup_singleton.
  - intros n. rewrite foldl_add_elem, list_elem_of_singleton, elem_of_cons. tauto.
Qed.

Lemma X4_upload_fills_fresh_directory_witness :
  exists entries,
    upload_array (with_id "x" repeated_upload) (fun _ w => w) empty_world
    = set_fs (<[srcPath (with_id "x" repeated_upload) := entries]> (fs empty_world))
             empty_world /\
    NoDup entries /\ forall n, n ∈ entries <-> n ∈ ["a.jpg"; "b.jpg"; "a.jpg"].
Proof.
  apply (X4_upload_fills_fresh_directory (with_id "x" repeated_upload)
           (fun _ w => w) empty_world ["a.jpg"; "b.jpg"; "a.jpg"]).
  - reflexivity.
  - discriminate.
  - vm_compute. reflexivity.
Defined.

(** ** Sorting the uploads (lines 281-296) *)

Lemma append_inj_l a b c : a +:+ b = a +:+ c -> b = c.
Proof. induction a as [|x a IH]; simpl; [done|]. intros [= H]. by apply IH. Qed.

Lemma images_not_gpc env req : destImagesPath env req <> destGpcPath env req.
Proof.
  unfold destImagesPath, destGpcPath, path_join. intros H.
  apply append_inj_l in H. discriminate H.
Qed.

Lemma sort_all env req cb w l :
  eachSeries l (sort_entry env) cb (req, w)
  = cb None (req, set_fs (foldl (sort_effect env req) (fs w) l) w).
Proof.
  revert w. induction l as [|e l IH]; intros w; simpl.
  - by destruct w.
  - unfold sort_entry at 1, sort_effect at 2.
    destruct (is_txt e); [|destruct (is_zip e)]; by rewrite IH.
Qed.

Lemma remove_entry_elem n e l : n ∈ Fs.remove_entry e l <-> n ∈ l /\ n <> e.
Proof. unfold Fs.remove_entry. rewrite list_elem_of_filter. tauto. Qed.

Section Sorting.

Variable env : Env.
Variable req : Request.

Let images := destImagesPath env req.
Let gpc := destGpcPath env req.

Lemma sort_effect_images f e cur :
  f !! images = Some cur ->
  exists cur', sort_effect env req f e !! images = Some cur' /\
    forall n, n ∈ cur' <->
              n ∈ cur /\ ~ (n = e /\ (is_txt e = true \/ is_zip e = true)).
Proof.
  intros Hcur. unfold sort_effect, Fs.mv_file, Fs.unlink, Fs.write_file.
  fold images gpc. rewrite Hcur.
  pose proof (images_not_gpc env req) as Hne. fold images gpc in Hne.
  destruct (is_txt e) eqn:Ht; [|destruct (is_zip e) eqn:Hz].
  - exists (Fs.remove_entry e cur). split.
    + destruct (<[images:=Fs.remove_entry e cur]> f !! gpc);
        [rewrite lookup_insert_ne by congruence|]; apply lookup_insert_eq.
    + intros n. rewrite remove_entry_elem. intuition congruence.
  - exists (Fs.remove_entry e cur). split; [apply lookup_insert_eq|].
    intros n. rewrite remove_entry_elem. intuition congruence.
  - exists cur. split; [done|]. intros n. intuition congruence.
Qed.

Lemma sort_effect_gpc f e g :
  f !! gpc = Some g -> is_Some (f !! images) ->
  exists g', sort_effect env req f e !! gpc = Some g' /\
    forall n, n ∈ g' <-> n ∈ g \/ (n = e /\ is_txt e = true).
Proof.
  intros Hg [cur Hcur]. unfold sort_effect, Fs.mv_file, Fs.unlink, Fs.write_file.
  fold images gpc. rewrite Hcur.
  pose proof (images_not_gpc env req) as Hne. fold images gpc in Hne.
  destruct (is_txt e) eqn:Ht; [|destruct (is_zip e) eqn:Hz].
  - rewrite lookup_insert_ne by done. rewrite Hg.
    eexists. split; [apply lookup_insert_eq|].
    intros n. rewrite add_entry_elem. intuition congruence.
  - rewrite lookup_insert_ne by done. exists g. intuition congruence.
  - exists g. intuition congruence.
Qed.

Lemma sort_effect_other f e p :
  p <> images -> p <> gpc -> sort_effect env req f e !! p = f !! p.
Proof.
  intros Hi Hg. unfold sort_effect, Fs.mv_file, Fs.unlink, Fs.write_file.
  fold images gpc.
  destruct (is_txt e); [|destruct (is_zip e)]; [| |done].
  - destruct (f !! images) as [cur|].
    + destruct (<[images:=Fs.remove_entry e cur]> f !! gpc);
        rewrite ?lookup_insert_ne by congruence; done.
    + destruct (f !! gpc); rewrite ?lookup_insert_ne by congruence; done.
  - destruct (f !! images); rewrite ?lookup_insert_ne by congruence; done.
Qed.

Lemma sort_all_images l f cur :
  f !! images = Some cur ->
  exists cur', foldl (sort_effect env req) f l !! images = Some cur' /\
    forall n, n ∈ cur' <->
              n ∈ cur /\ ~ (n ∈ l /\ (is_txt n = true \/ is_zip n = true)).
Proof.
  revert f cur. induction l as [|e l IH]; intros f cur Hcur; simpl.
  - exists cur. split; [done|]. intros n. rewrite elem_of_nil. tauto.
  - destruct (sort_effect_images f e cur Hcur) as (c1 & H1 & Hc1).
    destruct (IH _ c1 H1) as (c2 & H2 & Hc2).
    exists c2. split; [done|]. intros n.
    rewrite Hc2, Hc1, elem_of_cons.
    split.
    + intros [[Hn Hne] Hnl]. split; [done|].
      intros [[-> | Hl] Htz]; [apply Hne|apply Hnl]; done.
    + intros [Hn Hno]. split; [split; [done|]|].
      * intros [-> Htz]. apply Hno. split; [by left|done].
      * intros [Hl Htz]. apply Hno. split; [by right|done].
Qed.

Lemma sort_all_gpc l f g :
  f !! gpc = Some g -> is_Some (f !! images) ->
  exists g', foldl (sort_effect env req) f l !! gpc = Some g' /\
    forall n, n ∈ g' <-> n ∈ g \/ (n ∈ l /\ is_txt n = true).
Proof.
  revert f g. induction l as [|e l IH]; intros f g Hg Hi; simpl.
  - exists g. split; [done|]. intros n. rewrite elem_of_nil. tauto.
  - destruct (sort_effect_gpc f e g Hg Hi) as (g1 & H1 & Hg1).
    destruct Hi as [cur Hcur].
    destruct (sort_effect_images f e cur Hcur) as (c1 & Hc1 & _).
    destruct (IH _ g1 H1) as (g2 & H2 & Hg2); [by eexists|].
    exists g2. split; [done|]. intros n.
    rewrite Hg2, Hg1, elem_of_cons.
    split.
    + intros [[Hn | [-> Ht]] | [Hl Ht]]; [by left| |].
      * right. split; [by left|done].
      * right. split; [by right|done].
    + intros [Hn | [[-> | Hl] Ht]]; [by left; left| |].
      * left. right. done.
      * right. done.
Qed.

Lemma sort_all_other l f p :
  p <> images -> p <> gpc -> foldl (sort_effect env req) f l !! p = f !! p.
Proof.
  intros Hi Hg. revert f. induction l as [|e l IH]; intros f; simpl; [done|].
  by rewrite IH, sort_effect_other.
Qed.

End Sorting.

(** X5: the sorting step, run on an images directory with the entries
    [entries] and a gpc directory with the entries [g], calls back without
    error; afterwards the images directory holds exactly the entries that are
    neither GCP files nor archives (so no lingering [zipurl.zip]), the gpc
    directory holds its old entries and the GCP files, and no other path has
    changed. *)
Theorem X5_sorting_step env req cb w entries g :
  fs w !! destImagesPath env req = Some entries ->
  fs w !! destGpcPath env req = Some g ->
  exists f' images' gpc',
    step_move_gcp env cb (req, w) = cb None (req, set_fs f' w) /\
    f' !! destImagesPath env req = Some images' /\
    (forall n, n ∈ images' <-> n ∈ entries /\ is_txt n = false /\ is_zip n = false) /\
    f' !! destGpcPath env req = Some gpc' /\
    (forall n, n ∈ gpc' <-> n ∈ g \/ (n ∈ entries /\ is_txt n = true)) /\
    (forall p, p <> destImagesPath env req -> p <> destGpcPath env req ->
               f' !! p = fs w !! p).
Proof.
  intros Hi Hg.
  destruct (sort_all_images env req entries (fs w) entries Hi) as (i' & Hi' & Hin).
  destruct (sort_all_gpc env req entries (fs w) g Hg) as (g' & Hg' & Hgn);
    [by eexists|].
  exists (foldl (sort_effect env req) (fs w) entries), i', g'.
  split.
  { unfold step_move_gcp, Fs.readdir. rewrite Hi. apply sort_all. }
  split; [exact Hi'|]. split.
  { intros n. rewrite Hin. split.
    - intros [Hn Hno]. split; [done|].
      destruct (is_txt n) eqn:Ht; [destruct Hno; auto|].
      destruct (is_zip n) eqn:Hz; [destruct Hno; auto|]. done.
    - intros (Hn & Ht & Hz). split; [done|].
      intros [_ [H | H]]; congruence. }
  split; [exact Hg'|]. split; [exact Hgn|].
  intros p Hp1 Hp2. by apply sort_all_other.
Qed.

Lemma X5_sorting_step_witness :
  exists f' images' gpc',
    step_move_gcp sample_env (fun _ s => snd s) (unsorted_request, unsorted_world)
    = set_fs f' unsorted_world /\
    f' !! "data/x/images" = Some images' /\
    (forall n, n ∈ images' <->
               n ∈ ["a.jpg"; "gcp_list.txt"; "zipurl.zip"; "b.JPG"] /\
               is_txt n = false /\ is_zip n = false) /\
    f' !! "data/x/gpc" = Some gpc' /\
    (forall n, n ∈ gpc' <->
               n ∈ [] \/ (n ∈ ["a.jpg"; "gcp_list.txt"; "zipurl.zip"; "b.JPG"] /\
                          is_txt n = true)).
Proof.
  destruct (X5_sorting_step sample_env unsorted_request (fun _ s => snd s)
              unsorted_world ["a.jpg"; "gcp_list.txt"; "zipurl.zip"; "b.JPG"] [])
    as (f' & i' & g' & Hrun & Hi & Hin & Hg & Hgn & _).
  - vm_compute. reflexivity.
  - vm_compute. reflexivity.
  - exists f', i', g'. split; [exact Hrun|]. split; [exact Hi|].
    split; [exact Hin|]. split; [exact Hg | exact Hgn].
Defined.

(** ** The lookup routes (lines 318-491) *)

Ltac close_run :=
  unfold appended; simpl; rewrite <- ?app_assoc; simpl; reflexivity.

Ltac finish_run :=
  first [ close_run
        | unfold manager_calls, replies; simpl; lia
        | unfold manager_calls, replies; simpl; intros;
          first [ discriminate | done | split; done ] ].

Lemma stat_after_exists f p :
  Fs.exists_sync f p = true -> exists d, Fs.stat f p = Fs.Stats d.
Proof.
  unfold Fs.exists_sync, Fs.stat. destruct (Fs.is_dir f p); simpl.
  - by eexists.
  - intros ->. by eexists.
Qed.

(** X6: every info, output and download request, whatever it carries, is
    answered exactly once (with a body or a streamed file) and leaves the Task
    Manager, the file system and the snapshot untouched. *)
Theorem X6_lookups_read_only env req w :
  answered_unchanged w (get_task_info env req w) /\
  answered_unchanged w (get_task_output env req w) /\
  answered_unchanged w (get_task_download env req w).
Proof.
  unfold get_task_info, get_task_output, get_task_download, auth_mw,
    getTaskFromUuid, answered_unchanged.
  destruct (authCheck env req) as [denied|].
  { repeat split; exists [Respond denied]; repeat split; close_run. }
  destruct (TaskManager.find (params_uuid req) (tm w)) as [k|].
  2:{ repeat split; eexists; (split; [close_run|]); repeat split. }
  split; [|split].
  - eexists. split; [close_run|]. repeat split.
  - eexists. split; [close_run|]. repeat split.
  - unfold task_download_handler, with_req_task. simpl.
    destruct (truthy (getAssetsArchivePath env k _)).
    2:{ eexists. split; [close_run|]. repeat split. }
    destruct (Fs.exists_sync (fs w) _) eqn:Hex.
    2:{ eexists. split; [close_run|]. repeat split. }
    destruct (stat_after_exists _ _ Hex) as [d ->].
    eexists. split; [close_run|]. repeat split.
Qed.

(** X7: an asset that resolves to a path at which something exists is
    streamed, with [Content-Disposition: attachment; filename=<asset>] where
    the asset name defaults to [all.zip]; the size lookup that follows the
    existence test cannot fail, and no JSON body is sent. *)
Theorem X7_ready_asset_is_streamed env req w k p :
  authCheck env req = None ->
  TaskManager.find (params_uuid req) (tm w) = Some k ->
  let asset := default "all.zip" (params_asset req) in
  getAssetsArchivePath env k asset = Some p -> p <> EmptyString ->
  Fs.exists_sync (fs w) p = true ->
  get_task_download env req w
  = emit (Stream p [("Content-Disposition", "attachment; filename=" +:+ asset);
                    ("Content-Type", mime_getType env p);
                    ("Content-Length", show_Z (file_size env p))]) w.
Proof.
  intros Ha Hk asset Hp Hne Hex.
  unfold get_task_download, auth_mw, getTaskFromUuid. rewrite Ha, Hk.
  unfold task_download_handler, with_req_task. simpl. fold asset.
  rewrite Hp. simpl. destruct (String.eqb_spec p EmptyString); [done|]. simpl.
  rewrite Hex. by destruct (stat_after_exists _ _ Hex) as [d ->].
Qed.

Lemma X7_ready_asset_is_streamed_witness :
  get_task_download sample_env (lookup_request sample_uuid None None) ready_world
  = emit (Stream (path_join (path_join "data" sample_uuid) "all.zip")
            [("Content-Disposition", "attachment; filename=all.zip");
             ("Content-Type", "application/zip"); ("Content-Length", "42")])
         ready_world.
Proof.
  apply (X7_ready_asset_is_streamed sample_env
           (lookup_request sample_uuid None None) ready_world sample_task
           (path_join (path_join "data" sample_uuid) "all.zip")).
  - reflexivity.
  - reflexivity.
  - reflexivity.
  - discriminate.
  - vm_compute. reflexivity.
Defined.

(** ** The command routes (lines 515-626) *)

Lemma successHandler_responds err w :
  exists body, successHandler err w = respond body w.
Proof.
  destruct err as [e|]; simpl; [destruct (err_truthy e)|]; by eexists.
Qed.

(** X8: every cancel, remove and restart request, whatever it carries and
    whatever the collaborators answer, ends with its one and only response;
    the Task Manager is called at most once before it, and when it is not
    called (refused by the auth or uuid check, or by option validation) the
    Task Manager and the file system are as before. *)
Theorem X8_commands_answer_once env req w :
  answered_at_end w (post_task_cancel env req w) /\
  answered_at_end w (post_task_remove env req w) /\
  answered_at_end w (post_task_restart env req w).
Proof.
  unfold post_task_cancel, post_task_remove, post_task_restart, auth_mw,
    uuidCheck, answered_at_end.
  destruct (authCheck env req) as [denied|].
  { repeat split; exists [], denied; repeat split; finish_run. }
  destruct (truthy (body_uuid req)); simpl.
  2:{ repeat split; eexists [], _; repeat split; finish_run. }
  split; [|split].
  - unfold task_cancel_handler.
    destruct (TaskManager.cancel _ _ _) as [m err].
    destruct (successHandler_responds (ErrObj <$> err)
                (set_tm m (emit (CallCancel (default EmptyString (body_uuid req))) w)))
      as [body ->].
    exists [CallCancel (default EmptyString (body_uuid req))], body.
    repeat split; finish_run.
  - unfold task_remove_handler.
    destruct (TaskManager.remove _ _ _ _ _) as [[m f] err].
    destruct (successHandler_responds (ErrObj <$> err)
                (set_fs f (set_tm m
                   (emit (CallRemove (default EmptyString (body_uuid req))) w))))
      as [body ->].
    exists [CallRemove (default EmptyString (body_uuid req))], body.
    repeat split; finish_run.
  - unfold restart_options_mw, task_restart_handler.
    destruct (options_truthy (body_options req)).
    + destruct (filterOptions env (body_options req)) as [msg|opts].
      * exists [CallFilterOptions (body_options req)], (error_body (JStr msg)).
        repeat split; finish_run.
      * simpl. destruct (TaskManager.restart _ _ _ _) as [m err].
        destruct (successHandler_responds (ErrObj <$> err)
                    (set_tm m
                       (emit (CallRestart (default EmptyString (body_uuid req))
                                          (Some opts))
                          (emit (CallFilterOptions (body_options req)) w))))
          as [body ->].
        exists [CallFilterOptions (body_options req);
                CallRestart (default EmptyString (body_uuid req)) (Some opts)], body.
        repeat split; finish_run.
    + destruct (TaskManager.restart _ _ _ _) as [m err].
      destruct (successHandler_responds (ErrObj <$> err)
                  (set_tm m
                     (emit (CallRestart (default EmptyString (body_uuid req))
                                        (new_options (body_options req))) w)))
        as [body ->].
      exists [CallRestart (default EmptyString (body_uuid req))
                          (new_options (body_options req))], body.
      repeat split; finish_run.
Qed.

(** X9: a restart request whose options field is absent or empty never
    reaches the option validator: for an authorised request that names a uuid
    the Task Manager's restart is the first thing called, without new options,
    even with a validator that would refuse everything. *)
Theorem X9_restart_without_options env req w :
  authCheck env req = None -> truthy (body_uuid req) = true ->
  options_truthy (body_options req) = false ->
  exists body,
    appended w (post_task_restart env req w)
             [CallRestart (default EmptyString (body_uuid req)) None; Respond body].
Proof.
  intros Ha Hu Ho.
  unfold post_task_restart, auth_mw, uuidCheck, restart_options_mw,
    task_restart_handler.
  rewrite Ha, Hu, Ho. simpl.
  assert (new_options (body_options req) = None) as ->.
  { destruct (body_options req); [done|discriminate]. }
  destruct (TaskManager.restart _ _ _ _) as [m err].
  destruct (successHandler_responds (ErrObj <$> err)
              (set_tm m
                 (emit (CallRestart (default EmptyString (body_uuid req)) None) w)))
    as [body ->].
  exists body. close_run.
Qed.

Lemma X9_restart_without_options_witness :
  exists body,
    appended sample_world
      (post_task_restart cleanup_failing_env
         (command_request (Some sample_uuid) (Some EmptyString)) sample_world)
      [CallRestart sample_uuid None; Respond body].
Proof.
  apply (X9_restart_without_options cleanup_failing_env
           (command_request (Some sample_uuid) (Some EmptyString)) sample_world);
    reflexivity.
Defined.

(** ** Startup and shutdown (lines 851-898) *)

(** X10: the startup collaborators are invoked strictly in the order
    odmInfo, auth, S3, Task Manager, listen, and none is invoked after the
    first that fails; the "Server has started" line is logged exactly when all
    five succeed, and the Task Manager the routes use is the constructed one
    as soon as its construction was reached. *)
Theorem X10_startup_order cfg boot w :
  exists evs,
    appended w (startup cfg boot w) evs /\
    init_calls evs = take (steps_run boot) startup_order /\
    (Log "info" ("Server has started on port " +:+ show_Z (port cfg)) ∈ evs
     <-> first_error boot = None) /\
    tm (startup cfg boot w)
    = (if Nat.leb 4 (steps_run boot) then fst (TaskManager_new boot) else tm w).
Proof.
  destruct cfg as [prt lim pc tst].
  destruct boot as [o1 o2 o3 [m0 o4] o5].
  unfold first_error, appended, startup, series, commands, init_step,
    startup_final, steps_run, init_calls, startup_order.
  destruct o1, o2, o3, o4, o5, pc, tst; cbn;
    rewrite <- ?app_assoc; cbn;
    (eexists; split; [reflexivity|]; split; [reflexivity|]; split; [|reflexivity]);
    (split; [intros H; repeat (apply elem_of_cons in H as [H | H]; [discriminate H|]);
                       try (by apply elem_of_nil in H); try done
            | intros H; try discriminate H; set_solver]).
Qed.



(** X18: when the four collaborators succeed and the port cannot be bound,
    the startup series is never called back: after the five calls, in order,
    the error of the server is raised and that is the end of the run.  The
    "Error during startup" line is not logged, [process.exit] is not
    called, and power-cycle mode has no effect. *)
Theorem X18_bind_failure_is_not_reported cfg boot w m :
  reported_error boot = None -> listen boot = Some m ->
  let w' := startup cfg boot w in
  appended w w'
    ((if test cfg then [Log "info" "Running in test mode"] else [])
     ++ (CallInit <$> startup_order) ++ [Uncaught m]) /\
  tm w' = fst (TaskManager_new boot) /\ fs w' = fs w.
Proof.
  destruct cfg as [prt lim pc tst].
  destruct boot as [o1 o2 o3 [m0 o4] o5].
  unfold reported_error, appended, startup, series, commands, init_step,
    startup_final, startup_order.
  intros Hr Hl. simpl in Hr, Hl. subst o5.
  destruct o1, o2, o3, o4; try discriminate Hr.
  destruct pc, tst; cbn; rewrite <- ?app_assoc; done.
Qed.

Lemma X18_bind_failure_is_not_reported_witness :
  trace (startup powercycle_config bind_failing_boot empty_world)
  = [CallInit "odmInfo.initialize"; CallInit "auth.initialize";
     CallInit "S3.initialize"; CallInit "new TaskManager"; CallInit "app.listen";
     Uncaught "listen EADDRINUSE :::3000"].
Proof.
  exact (proj1 (X18_bind_failure_is_not_reported powercycle_config bind_failing_boot
                  empty_world "listen EADDRINUSE :::3000" eq_refl eq_refl)).
Defined.

(** ** POST /task/new as a whole (lines 154-316) *)

Lemma die_other q e w p : p <> q -> fs (die q e w) !! p = fs w !! p.
Proof.
  intros Hp. unfold die. destruct (Fs.stat _ _) as [[]|]; simpl; [|done..].
  unfold Fs.rimraf. by rewrite lookup_delete_ne.
Qed.

Lemma over_limit_zero cfg : over_limit cfg 0 = false.
Proof.
  unfold over_limit. destruct (maxImages cfg) as [m|]; [|done].
  by rewrite andb_false_r.
Qed.

(** X12: every POST /task/new request from which no exception escapes is
    answered exactly once; and the Task Manager is either left as it was or
    has gained one task through [addNew], in which case the one answer is
    [{uuid: <id of that task>}] and the id is the generated one or the
    supplied set-uuid. *)
Theorem X12_task_new_answers env req w :
  exists evs,
    appended w (post_task_new env req w) evs /\
    (raised evs = false -> exists body, answers evs = [body]) /\
    (tm (post_task_new env req w) = tm w \/
     exists k,
       tm (post_task_new env req w) = TaskManager.addNew (now env) k (tm w) /\
       answers evs = [JObj [("uuid", JStr (Task.uuid k))]] /\
       (Task.uuid k = uuidv4 env \/ set_uuid req = Some (Task.uuid k))).
Proof.
  assert (forall (Q : string -> Prop) i,
            Q i ->
            exists evs,
              appended w (upload_array (with_id i req) (task_new_handler env) w) evs /\
              (raised evs = false -> exists body, answers evs = [body]) /\
              (tm (upload_array (with_id i req) (task_new_handler env) w) = tm w \/
               exists k,
                 tm (upload_array (with_id i req) (task_new_handler env) w)
                 = TaskManager.addNew (now env) k (tm w) /\
                 answers evs = [JObj [("uuid", JStr (Task.uuid k))]] /\
                 Q (Task.uuid k))) as Hsettled.
  { intros Q i Hi. destruct (files req) as [fl|] eqn:Hf.
    - destruct (upload_settles env (with_id i req) w) as (evs & Happ & Hout);
        [by exists fl|].
      exists evs. split; [done|].
      destruct Hout as [(k & Hk & Htm & Ha) | [(Htm & Hr) | (Htm & Hr & [x Ha] & _)]].
      + split; [by eexists|]. right. exists k. simpl in Hk. rewrite Hk.
        by repeat split.
      + split; [by rewrite Hr|]. by left.
      + split; [by eexists|]. by left.
    - rewrite (upload_without_body env (with_id i req) w) by exact Hf.
      eexists. split; [close_run|]. split; [by eexists|by left]. }
  unfold post_task_new, auth_mw, set_uuid_mw.
  destruct (authCheck env req) as [denied|].
  { exists [Respond denied]. split; [close_run|]. split; [by eexists|by left]. }
  destruct (set_uuid req) as [u|] eqn:Hh; simpl.
  - destruct (negb (String.eqb u EmptyString)).
    + destruct (_ && _)%bool.
      * apply (Hsettled (fun i => i = uuidv4 env \/ Some u = Some i) u). by right.
      * eexists. split; [close_run|]. split; [by eexists|by left].
    + apply (Hsettled (fun i => i = uuidv4 env \/ Some u = Some i) (uuidv4 env)).
      by left.
  - apply (Hsettled (fun i => i = uuidv4 env \/ None = Some i) (uuidv4 env)).
    by left.
Qed.

(** X13: when the option validator refuses the options of a multipart
    request that passed the input checks, the request is answered with the
    validator's message right away: the Task Manager is untouched, the upload
    directory is gone, and no other path of the file system has changed
    (nothing was created under the data directory). *)
Theorem X13_invalid_options_stop_early env req w fl msg :
  files req = Some fl ->
  (has_files req || truthy (body_zipurl req))%bool = true ->
  over_limit (config env) (length fl) = false ->
  filterOptions env (body_options req) = inl msg ->
  let w' := task_new_handler env req w in
  appended w w' [CallFilterOptions (body_options req);
                 Respond (error_body (JStr msg))] /\
  tm w' = tm w /\
  Fs.is_dir (fs w') (srcPath req) = false /\
  forall p, p <> srcPath req -> fs w' !! p = fs w !! p.
Proof.
  intros Hf Hin Hlim Hopt w'. subst w'.
  assert (task_new_handler env req w
          = die (srcPath req) (Some msg)
                (emit (CallFilterOptions (body_options req)) w)) as ->.
  { unfold task_new_handler. rewrite Hf, Hlim.
    replace (negb (has_files req) && negb (truthy (body_zipurl req)))%bool
      with false by (by destruct (has_files req), (truthy (body_zipurl req))).
    unfold series, task_new_steps; simpl; by rewrite Hopt. }
  split; [|split; [|split]].
  - unfold appended. rewrite die_trace. simpl. by rewrite <- app_assoc.
  - by rewrite die_tm.
  - apply die_cleans.
  - intros p Hp. by rewrite die_other.
Qed.

Lemma X13_invalid_options_stop_early_witness :
  appended empty_world
    (task_new_handler cleanup_failing_env (upload_request None ["a.jpg"]) empty_world)
    [CallFilterOptions (Raw None); Respond (error_body (JStr "Invalid options"))] /\
  tm (task_new_handler cleanup_failing_env (upload_request None ["a.jpg"]) empty_world)
  = tm empty_world /\
  Fs.is_dir
    (fs (task_new_handler cleanup_failing_env (upload_request None ["a.jpg"])
                          empty_world))
    (srcPath (upload_request None ["a.jpg"])) = false /\
  forall p, p <> srcPath (upload_request None ["a.jpg"]) ->
    fs (task_new_handler cleanup_failing_env (upload_request None ["a.jpg"])
                         empty_world) !! p = fs empty_world !! p.
Proof.
  apply (X13_invalid_options_stop_early cleanup_failing_env
           (upload_request None ["a.jpg"]) empty_world ["a.jpg"] "Invalid options");
    reflexivity.
Defined.

(** X14: a multipart request without uploaded files whose zip URL cannot be
    fetched is answered with the error of the HEAD request; the upload
    directory that was created to receive the archive is removed again,
    nothing else on disk has changed and the Task Manager is untouched. *)
Theorem X14_failed_download_cleans_up env req w url opts msg :
  files req = Some [] ->
  body_zipurl req = Some url -> url <> EmptyString ->
  filterOptions env (body_options req) = inr opts ->
  head_error env url = Some msg ->
  let w' := task_new_handler env req w in
  appended w w' [CallFilterOptions (body_options req);
                 Respond (error_body (JStr msg))] /\
  tm w' = tm w /\
  Fs.is_dir (fs w') (srcPath req) = false /\
  forall p, p <> srcPath req -> fs w' !! p = fs w !! p.
Proof.
  intros Hfl Hz Hne Hopt Hhead w'. subst w'.
  assert (has_files req = false) as Hf by (unfold has_files; by rewrite Hfl).
  assert (truthy (body_zipurl req) = true) as Ht.
  { rewrite Hz. simpl. by destruct (String.eqb_spec url EmptyString). }
  assert (exists f1,
            (forall p, p <> srcPath req -> f1 !! p = fs w !! p) /\
            task_new_handler env req w
            = die (srcPath req) (Some msg)
                  (set_fs f1 (emit (CallFilterOptions (body_options req)) w)))
    as (f1 & Hf1 & ->).
  { unfold task_new_handler. rewrite Hfl, Hf, Ht. simpl.
    rewrite over_limit_zero.
    unfold series, task_new_steps. simpl. rewrite Hopt. simpl.
    change (has_files (with_options (Parsed opts) req)) with (has_files req).
    rewrite Hf, Ht. unfold destination.
    change (id (with_options (Parsed opts) req)) with (id req).
    change (srcPath (with_options (Parsed opts) req)) with (srcPath req).
    fold (srcPath req). rewrite Hz. simpl default. rewrite Hhead.
    destruct (Fs.exists_sync _ _).
    - exists (fs w). split; [done|]. by destruct w.
    - eexists. split; [|reflexivity].
      intros p Hp. unfold Fs.mkdir. simpl.
      destruct (Fs.is_dir _ _); simpl; [done|]. by rewrite lookup_insert_ne. }
  split; [|split; [|split]].
  - unfold appended. rewrite die_trace. simpl. by rewrite <- app_assoc.
  - by rewrite die_tm.
  - apply die_cleans.
  - intros p Hp. rewrite die_other by done. simpl. by apply Hf1.
Qed.

Lemma X14_failed_download_cleans_up_witness :
  appended empty_world (task_new_handler download_failing_env zipurl_request empty_world)
    [CallFilterOptions (Raw None);
     Respond (error_body (JStr "getaddrinfo ENOTFOUND example.org"))] /\
  tm (task_new_handler download_failing_env zipurl_request empty_world)
  = tm empty_world /\
  Fs.is_dir (fs (task_new_handler download_failing_env zipurl_request empty_world))
            (srcPath zipurl_request) = false /\
  forall p, p <> srcPath zipurl_request ->
    fs (task_new_handler download_failing_env zipurl_request empty_world) !! p
    = fs empty_world !! p.
Proof.
  apply (X14_failed_download_cleans_up download_failing_env zipurl_request empty_world
           "http://example.org/images.zip" [] "getaddrinfo ENOTFOUND example.org");
    try reflexivity.
  discriminate.
Defined.

(** X15: the image limit on uploaded files is a strict bound that 0 switches
    off: with no limit or a limit of 0 any number of files goes on to the
    pipeline, with a limit [m] exactly [m] files still do, and more than a
    non-zero [m] are refused by [die] with a message naming both numbers. *)
Theorem X15_upload_limit_boundary env req w fl :
  files req = Some fl -> fl <> [] ->
  let proceeds :=
    task_new_handler env req w
    = series (task_new_steps env) task_new_final (req, w) in
  (maxImages (config env) = None \/ maxImages (config env) = Some 0%nat ->
   proceeds) /\
  (forall m, maxImages (config env) = Some m -> (length fl <= m)%nat -> proceeds) /\
  (forall m, maxImages (config env) = Some m -> (0 < m < length fl)%nat ->
   task_new_handler env req w
   = die (srcPath req)
         (Some (show_nat (length fl)
                +:+ " images uploaded, but this node can only process up to "
                +:+ show_nat m +:+ ".")) w).
Proof.
  intros Hf Hne proceeds. subst proceeds. split; [|split].
  - intros Hm. apply (files_within_limit_accepted env req w fl Hf Hne).
    unfold over_limit. by destruct Hm as [-> | ->].
  - intros m Hm Hle. apply (files_within_limit_accepted env req w fl Hf Hne).
    unfold over_limit. rewrite Hm.
    apply andb_false_iff. right. apply Nat.ltb_ge. exact Hle.
  - intros m Hm [Hpos Hlt].
    rewrite (files_over_limit_rejected env req w fl Hf).
    + unfold limit_message. by rewrite Hm.
    + unfold over_limit. rewrite Hm. apply andb_true_iff. split.
      * apply negb_true_iff, Nat.eqb_neq. lia.
      * apply Nat.ltb_lt. exact Hlt.
Qed.

Lemma X15_upload_limit_boundary_witness :
  (forall m, maxImages (config sample_env) = Some m -> (2 <= m)%nat ->
   task_new_handler sample_env (upload_request None ["a.jpg"; "b.jpg"]) empty_world
   = series (task_new_steps sample_env) task_new_final
            (upload_request None ["a.jpg"; "b.jpg"], empty_world)) /\
  task_new_handler sample_env (upload_request None ["a.jpg"; "b.jpg"; "c.jpg"])
                   empty_world
  = die (srcPath (upload_request None ["a.jpg"; "b.jpg"; "c.jpg"]))
        (Some "3 images uploaded, but this node can only process up to 2.")
        empty_world.
Proof.
  split.
  - destruct (X15_upload_limit_boundary sample_env
                (upload_request None ["a.jpg"; "b.jpg"]) empty_world
                ["a.jpg"; "b.jpg"] eq_refl) as (_ & Hwithin & _); [discriminate|].
    exact Hwithin.
  - destruct (X15_upload_limit_boundary sample_env
                (upload_request None ["a.jpg"; "b.jpg"; "c.jpg"]) empty_world
                ["a.jpg"; "b.jpg"; "c.jpg"] eq_refl) as (_ & _ & Hover);
      [discriminate|].
    apply (Hover 2%nat); [reflexivity | simpl; lia].
Defined.

(** ** Extracting the archives (lines 241-279) *)

Lemma write_all_into (d : string) (f : gmap string (list string)) cur names :
  f !! d = Some cur ->
  foldl (fun f n => Fs.write_file d n f) f names
  = <[d := foldl (fun acc n => Fs.add_entry n acc) cur names]> f.
Proof.
  revert f cur. induction names as [|n names IH]; intros f cur Hcur; simpl.
  - by rewrite insert_id.
  - unfold Fs.write_file at 2. rewrite Hcur.
    rewrite (IH _ (Fs.add_entry n cur)) by apply lookup_insert_eq.
    apply insert_insert_eq.
Qed.

Lemma extract_effect_images env req f e cur :
  f !! destImagesPath env req = Some cur ->
  exists cur', extract_effect env req f e !! destImagesPath env req = Some cur' /\
    forall n, n ∈ cur' <->
      n ∈ cur \/
      exists names, is_zip e = true /\
        zip env (path_join (destImagesPath env req) e) = ZipExtracted names /\
        n ∈ names.
Proof.
  intros Hcur. unfold extract_effect.
  destruct (is_zip e); [destruct (zip env _) as [m|st|names] eqn:Hz|].
  - exists cur. split; [done|]. intros n. split; [by left|].
    by intros [? | (? & _ & ? & _)].
  - exists cur. split; [done|]. intros n. split; [by left|].
    by intros [? | (? & _ & ? & _)].
  - rewrite (write_all_into _ _ cur names Hcur).
    eexists. split; [apply lookup_insert_eq|]. intros n. rewrite foldl_add_elem.
    split.
    + intros [? | ?]; [by left|]. right. by exists names.
    + intros [? | (names' & _ & [= <-] & ?)]; [by left|by right].
  - exists cur. split; [done|]. intros n. split; [by left|].
    by intros [? | (? & ? & _)].
Qed.

Lemma extract_all_within env req cb l w :
  archives_within_limit env req l ->
  exists w',
    eachSeries l (extract_entry env) cb (req, w) = cb None (req, w') /\
    tm w' = tm w /\
    fs w' = foldl (extract_effect env req) (fs w) l /\
    exists evs, appended w w' evs /\ answers evs = [] /\ raised evs = false.
Proof.
  revert w. induction l as [|e l IH]; intros w Hall; simpl.
  - exists w. repeat split; try done. exists []. split; [apply appended_refl|done].
  - assert (archives_within_limit env req l) as Hl.
    { intros e' He'. apply Hall. by right. }
    unfold extract_entry at 1, extract_effect at 2.
    destruct (is_zip e) eqn:Hz.
    + destruct (Hall e) as (names & -> & ->); [by left|done|].
      destruct (IH (emit (Log "info" ("Extracted " +:+ show_nat (length names)
                                      +:+ " entries"))
                      (set_fs (foldl (fun f n =>
                                 Fs.write_file (destImagesPath env req) n f)
                                 (fs w) names) w)) Hl)
        as (w' & -> & Htm & Hfs & evs & Happ & Ha & Hr).
      exists w'. split; [done|]. split; [done|]. split; [done|].
      eexists (_ :: evs). split.
      * unfold appended in *. rewrite Happ. simpl. by rewrite <- app_assoc.
      * simpl. by rewrite Hr.
    + destruct (IH w Hl) as (w' & -> & Htm & Hfs & Hevs). by exists w'.
Qed.

(** X16: the image limit on archives is applied to each archive by itself:
    when every archive in the images directory extracts to no more than the
    limit, the extraction step calls back without error however many entries
    they add up to, answers nothing, leaves the Task Manager alone, and the
    images directory then holds its previous entries (the archives included)
    together with everything the archives contained. *)
Theorem X16_limit_is_per_archive env req cb w entries :
  fs w !! destImagesPath env req = Some entries ->
  archives_within_limit env req entries ->
  exists w' images',
    step_extract_zips env cb (req, w) = cb None (req, w') /\
    tm w' = tm w /\
    (exists evs, appended w w' evs /\ answers evs = [] /\ raised evs = false) /\
    fs w' !! destImagesPath env req = Some images' /\
    forall n, n ∈ images' <->
      n ∈ entries \/
      exists e names, e ∈ entries /\ is_zip e = true /\
        zip env (path_join (destImagesPath env req) e) = ZipExtracted names /\
        n ∈ names.
Proof.
  intros Hi Hall.
  destruct (extract_all_within env req cb entries w Hall)
    as (w' & Hrun & Htm & Hfs & Hevs).
  assert (forall l f cur,
            f !! destImagesPath env req = Some cur ->
            exists cur',
              foldl (extract_effect env req) f l !! destImagesPath env req
              = Some cur' /\
              forall n, n ∈ cur' <->
                n ∈ cur \/
                exists e names, e ∈ l /\ is_zip e = true /\
                  zip env (path_join (destImagesPath env req) e)
                  = ZipExtracted names /\ n ∈ names) as Hfold.
  { induction l as [|e l IH]; intros f cur Hcur; simpl.
    - exists cur. split; [done|]. intros n. split; [by left|].
      intros [? | (e & ? & He & _)]; [done|]. by apply elem_of_nil in He.
    - destruct (extract_effect_images env req f e cur Hcur) as (c1 & H1 & Hc1).
      destruct (IH _ c1 H1) as (c2 & H2 & Hc2).
      exists c2. split; [done|]. intros n. rewrite Hc2, Hc1. split.
      + intros [[? | (names & Hz & Hzip & Hn)] | (e' & names & He' & Hrest)].
        * by left.
        * right. exists e, names. split; [by left|done].
        * right. exists e', names. split; [by right|done].
      + intros [? | (e' & names & He' & Hz & Hzip & Hn)]; [by left; left|].
        apply elem_of_cons in He' as [-> | He'].
        * left. right. by exists names.
        * right. by exists e', names. }
  destruct (Hfold entries (fs w) entries Hi) as (images' & Hlook & Hmem).
  exists w', images'. split.
  { unfold step_extract_zips, Fs.readdir. by rewrite Hi. }
  split; [done|]. split; [done|]. split; [by rewrite Hfs|done].
Qed.

Lemma X16_limit_is_per_archive_witness :
  exists w' images',
    step_extract_zips two_archives_env (fun _ s => snd s)
                      (unsorted_request, two_archives_world) = w' /\
    tm w' = tm two_archives_world /\
    fs w' !! "data/x/images" = Some images' /\
    (forall n, n ∈ images' <->
       n ∈ ["a.zip"; "b.zip"] \/
       exists e names, e ∈ ["a.zip"; "b.zip"] /\ is_zip e = true /\
         zip two_archives_env (path_join "data/x/images" e) = ZipExtracted names /\
         n ∈ names) /\
    over_limit (config two_archives_env) 4 = true.
Proof.
  destruct (X16_limit_is_per_archive two_archives_env unsorted_request
              (fun _ s => snd s) two_archives_world ["a.zip"; "b.zip"])
    as (w' & images' & Hrun & Htm & _ & Hlook & Hmem).
  - vm_compute. reflexivity.
  - intros e He Hz.
    apply elem_of_cons in He as [-> | He]; [by eexists|].
    apply list_elem_of_singleton in He as ->. by eexists.
  - exists w', images'. split; [exact Hrun|]. split; [exact Htm|].
    split; [exact Hlook|]. split; [exact Hmem | reflexivity].
Defined.

(** X17: a request with uploaded files, within the limit and with valid
    options, whose data directory [<data>/<id>] already exists ends right
    after option validation with an exception raised inside the callback of
    the directory check: nothing is answered and the file system, the upload
    directory included, is left as it was. *)
Theorem X17_existing_data_directory env req w fl opts :
  files req = Some fl -> fl <> [] -> over_limit (config env) (length fl) = false ->
  filterOptions env (body_options req) = inr opts ->
  Fs.is_dir (fs w) (destPath env req) = true ->
  let w' := task_new_handler env req w in
  appended w w' [CallFilterOptions (body_options req);
                 Uncaught "TypeError: Cannot read property 'code' of null"] /\
  fs w' = fs w /\ tm w' = tm w.
Proof.
  intros Hf Hne Hok Hopts Hd w'. subst w'.
  assert (task_new_handler env req w
          = emit (Uncaught "TypeError: Cannot read property 'code' of null")
                 (emit (CallFilterOptions (body_options req)) w)) as ->.
  { rewrite (files_within_limit_accepted env req w fl Hf Hne Hok).
    unfold series, task_new_steps. simpl. rewrite Hopts.
    unfold has_files, Fs.stat. simpl. rewrite Hf.
    destruct fl as [|x fl]; [done|].
    change (destPath env (with_options (Parsed opts) req)) with (destPath env req).
    by rewrite Hd. }
  split; [close_run|done].
Qed.

Lemma X17_existing_data_directory_witness :
  appended stale_world
    (task_new_handler sample_env (with_id "x" (upload_request None ["y.jpg"]))
                      stale_world)
    [CallFilterOptions (Raw None);
     Uncaught "TypeError: Cannot read property 'code' of null"] /\
  fs (task_new_handler sample_env (with_id "x" (upload_request None ["y.jpg"]))
                       stale_world) = fs stale_world /\
  tm (task_new_handler sample_env (with_id "x" (upload_request None ["y.jpg"]))
                       stale_world) = tm stale_world.
Proof.
  apply (X17_existing_data_directory sample_env
           (with_id "x" (upload_request None ["y.jpg"])) stale_world
           ["y.jpg"] [("dsm", "true")]).
  - reflexivity.
  - discriminate.
  - reflexivity.
  - reflexivity.
  - vm_compute. reflexivity.
Defined.
